(** * Preset composition engine: addon-name resolution, preset loading and
      extension application

    A shallow embedding of the preset module kept in
    [src/scripts/prepare/bundle.ts], which holds two revisions of it: the
    first (lines 222-659) resolves addon names with the browser and node
    resolvers and with export-map lookup, the second (lines 660-989) with
    the single collaborator [safeResolveAll].  The loader and the applier
    are the same text in both revisions and are embedded once.

    Modelling conventions
    - JavaScript values are a first-order tree type [value].  Numbers are
      integers, objects are finite maps from property names to values (own
      properties only; key order and the prototype chain are not represented).
    - A promise is represented by the way it settles: [Some (Ret v)] when it
      fulfils with [v], [Some (Threw e)] when it rejects with [e] (a
      synchronous throw inside a [then] callback rejects the same way) and
      [None] when it never settles.  Recursion that JavaScript leaves
      unbounded (re-entrant [apply], recursive preset loading) is driven by a
      fuel counter; running out of fuel is [None].
    - User-supplied functions are named by an identifier; what they do is
      given by a table of resumption trees which may call back into any
      function value they were handed (in particular the re-entrant [apply]).
    - Sibling presets are loaded together ([Promise.all]).  Their entries
      come back in input order; the order in which their messages reach the
      logger, and which of several rejections settles the pass, are left to
      the job queue, which the loader takes as a parameter.
    - [console.log] calls are left out. *)

From stdpp Require Import gmap strings list fin_maps pretty.
From Stdlib Require Import ZArith.

Set Warnings "-register-all".
Open Scope string_scope.
Open Scope list_scope.

(** ** JavaScript values *)

Inductive value :=
| VUndef
| VNull
| VBool (b : bool)
| VNum (n : Z)
| VStr (s : string)
| VArr (l : list value)
| VObj (o : gmap string value)
| VFun (id : nat)
    (* a function supplied by a preset or by the host *)
| VApply (presets : list loaded) (storybookOptions : gmap string value)
    (* the closure
       [async (ext, c, a = {}) => applyPresets(presets, ext, c, a, storybookOptions)] *)
with loaded :=
| Loaded (name : value) (preset : gmap string value) (options : value).

(** What a [throw] or a rejection carries. *)
Inductive error :=
| TypeError (msg : string)
| JsError (msg : string)
| Thrown (v : value).

Inductive outcome (A : Type) :=
| Ret (a : A)
| Threw (e : error).
Arguments Ret {A} a.
Arguments Threw {A} e.

(** A settled or forever-pending promise. *)
Definition promise := option (outcome value).

(** The body of a user function: it finishes with a result or an exception,
    or calls a function value and continues with what came back. *)
Inductive prog :=
| Done (r : outcome value)
| Invoke (f this : value) (args : list value) (k : outcome value → prog).

Definition truthy (v : value) : bool :=
  match v with
  | VUndef | VNull => false
  | VBool b => b
  | VNum n => negb (n =? 0)%Z
  | VStr s => negb (bool_decide (s = ""))
  | _ => true
  end.

Definition isArray (v : value) : bool :=
  match v with VArr _ => true | _ => false end.

(** [val != null && typeof val === 'object' && Array.isArray(val) === false] *)
Definition isObject (val : value) : bool :=
  match val with VObj _ => true | _ => false end.

(** [typeof val === 'function'] *)
Definition isFunction (val : value) : bool :=
  match val with VFun _ | VApply _ _ => true | _ => false end.

Fixpoint chars (s : string) : list value :=
  match s with
  | EmptyString => []
  | String c r => VStr (String c EmptyString) :: chars r
  end.

Definition indexed (l : list value) : gmap string value :=
  list_to_map (imap (λ i v, (pretty i, v)) l).

(** The own enumerable properties copied by [...v] inside an object
    literal. *)
Definition own_props (v : value) : gmap string value :=
  match v with
  | VObj o => o
  | VArr l => indexed l
  | VStr s => indexed (chars s)
  | _ => ∅
  end.

(** [{ ...a, ...b }]: the keys of [b] win. *)
Definition spread (a b : gmap string value) : gmap string value := b ∪ a.

Definition loaded_to_value (p : loaded) : value :=
  match p with
  | Loaded name preset options =>
      VObj (<["options" := options]>
             (<["preset" := VObj preset]> {["name" := name]}))
  end.

Definition nth_arg (i : nat) (args : list value) : value :=
  default VUndef (args !! i).

(** ** Extension application *)

Section Apply.

(** The body of each user function, given [this] and the arguments. *)
Variable fnBody : nat → value → list value → prog.
(** [String(v)], used where a non-string is used as a property key or
    interpolated in a message. *)
Variable ToString : value → string.

Definition to_key (v : value) : string :=
  match v with VStr s => s | _ => ToString v end.

(** [p.then(f)] *)
Definition then_ (p : promise) (f : value → promise) : promise :=
  match p with
  | Some (Ret v) => f v
  | Some (Threw e) => Some (Threw e)
  | None => None
  end.

Definition combinedOptions (presets : list loaded)
    (storybookOptions : gmap string value) (args options : value)
    : gmap string value :=
  <["presets" := VObj {["apply" := VApply presets storybookOptions]}]>
    (<["presetsList" := VArr (loaded_to_value <$> presets)]>
      (spread (spread (spread ∅ storybookOptions) (own_props args))
              (own_props options))).

Section OneLevel.

(** Calling a function value, with the calls it makes itself already
    accounted for. *)
Variable call : value → value → list value → promise.

Fixpoint run (p : prog) : promise :=
  match p with
  | Done r => Some r
  | Invoke f this args k =>
      match call f this args with
      | Some r => run (k r)
      | None => None
      end
  end.

(** The callback given to [presets.reduce]. *)
Definition reducer (presets : list loaded) (extension : string)
    (args : value) (storybookOptions : gmap string value)
    (accumulationPromise : promise) (p : loaded) : promise :=
  let '(Loaded _ preset options) := p in
  let change := default VUndef (preset !! extension) in
  if negb (truthy change) then accumulationPromise
  else if isFunction change then
    let extensionFn := change in
    then_ accumulationPromise (λ newConfig,
      call extensionFn (VObj preset)
        [newConfig;
         VObj (combinedOptions presets storybookOptions args options)])
  else
    then_ accumulationPromise (λ newConfig,
      match newConfig, change with
      | VArr a, VArr c => Some (Ret (VArr (a ++ c)))
      | VObj a, VObj c => Some (Ret (VObj (spread a c)))
      | _, _ => Some (Ret change)
      end).

Definition applyPresets_with (presets : list loaded) (extension : string)
    (config args : value) (storybookOptions : gmap string value)
    : promise :=
  let presetResult := Some (Ret config) in
  match presets with
  | [] => presetResult
  | _ =>
      foldl (reducer presets extension args storybookOptions)
            presetResult presets
  end.

End OneLevel.

(** Calling a function value: a user function runs its body, the [apply]
    closure runs the fold again on the list it captured. *)
Fixpoint call (fuel : nat) (f this : value) (args : list value) : promise :=
  match fuel with
  | O => None
  | S n =>
      match f with
      | VFun id => run (call n) (fnBody id this args)
      | VApply presets storybookOptions =>
          let ext := nth_arg 0 args in
          let c := nth_arg 1 args in
          let a := match nth_arg 2 args with
                   | VUndef => VObj ∅
                   | a => a
                   end in
          applyPresets_with (call n) presets (to_key ext) c a
            storybookOptions
      | _ => Some (Threw (TypeError "not a function"))
      end
  end.

Definition applyPresets (fuel : nat) (presets : list loaded)
    (extension : string) (config args : value)
    (storybookOptions : gmap string value) : promise :=
  applyPresets_with (call fuel) presets extension config args
    storybookOptions.

End Apply.

(** ** Addon-name resolution *)

(** What a resolver hands back: a path, or [false]/[undefined]. *)
Definition resolution := option string.

(** Truthiness of a resolver result: the empty string is falsy as well. *)
Definition found (r : resolution) : bool :=
  match r with
  | Some s => negb (bool_decide (s = ""))
  | None => false
  end.

(** [a || b] *)
Definition or_else (a b : resolution) : resolution :=
  if found a then a else b.

Definition path_of (r : resolution) : string := default "" r.

Definition endsWith (s suffix : string) : bool :=
  String.prefix (String.rev suffix) (String.rev s).

Fixpoint includes (s needle : string) : bool :=
  String.prefix needle s
  || match s with
     | EmptyString => false
     | String _ r => includes r needle
     end.

(** [/\/(b1|b2|...)(\.(js|mjs|ts|tsx|jsx))?$/] for the given base names. *)
Definition matches_entry (bases : list string) (s : string) : bool :=
  existsb (λ b,
    existsb (λ ext, endsWith s ("/" +:+ b +:+ ext))
            [""; ".js"; ".mjs"; ".ts"; ".tsx"; ".jsx"])
    bases.

(** [/\/(manager|register(-panel)?)(\.(js|mjs|ts|tsx|jsx))?$/] *)
Definition matches_manager : string → bool :=
  matches_entry ["manager"; "register"; "register-panel"].

(** [/\/(preset)(\.(js|mjs|ts|tsx|jsx))?$/] *)
Definition matches_preset : string → bool :=
  matches_entry ["preset"].

Inductive PreviewAnnotation :=
| Bare (path : string)
| BareAbsolute (bare absolute : string).

Record CoreCommon_ResolvedAddonVirtual := {
  name : string;
  managerEntries : option (list string);
  previewAnnotations : option (list PreviewAnnotation);
  presets : option (list (string * value))
    (* [{ name: presetFile, options }] *)
}.

Inductive ResolvedAddon :=
| Virtual (v : CoreCommon_ResolvedAddonVirtual)
    (* [type: 'virtual'] *)
| Presets (name : string).
    (* [type: 'presets'], CoreCommon_ResolvedAddonPreset *)

(** The tail shared by both revisions: what is returned once one of the
    four sub-entries is known to be there. *)
Definition virtual_of (name : string) (options : value)
    (managerFile registerFile previewFile presetFile : resolution)
    (annotation : PreviewAnnotation) : ResolvedAddon :=
  let managerEntries :=
    (if found managerFile then [path_of managerFile] else [])
    ++ (if negb (found managerFile) && found registerFile
           && negb (found presetFile)
        then [path_of registerFile] else []) in
  Virtual {|
    name := name;
    managerEntries :=
      match managerEntries with [] => None | _ => Some managerEntries end;
    previewAnnotations :=
      if found previewFile then Some [annotation] else None;
    presets :=
      if found presetFile then Some [(path_of presetFile, options)] else None
  |}.

Record Package := {
  path : string;          (* where the manifest was found *)
  exports : value         (* [packageJson.exports] *)
}.

(** *** First revision: general resolvers and export-map lookup *)

Module General.

(** What the first revision relies on. *)
Record Collaborators := {
  (** [enhancedResolve.create.sync] instances, called with and without a
      context argument; they return a path or [false], or throw. *)
  browserMain : string → string → outcome resolution;
  browserMainNoContext : string → string → outcome resolution;
  nodeMain : string → string → outcome resolution;
  safeResolve : string → resolution;
  safeResolveFrom : string → string → resolution;
  resolveImports : value → string → list string → outcome (list string);
  readUpSync : resolution → option Package;
  dirname : string → string;
  join : string → string → string;
  slash : string → string;
  cwd : string   (* [process.cwd()] *)
}.

Section Resolve.

Variable env : Collaborators.

Definition browserResolver (input : string) (from : option string)
    : resolution :=
  let from := default (cwd env) from in
  match browserMain env from input with
  | Ret a =>
      match browserMainNoContext env from input with
      | Ret _ => a
      | Threw _ => None
      end
  | Threw _ => None
  end.

Definition nodeResolver (input : string) (from : option string)
    : resolution :=
  let from := default (cwd env) from in
  match nodeMain env from input with
  | Ret a => a
  | Threw _ => None
  end.

Section Probes.

Variable name : string.
Variable pkg : Package.

Definition dir : string := dirname env (path pkg).

Definition resolveFromExportsBrowser (input : string) : resolution :=
  let conditions := ["browser"; "import"; "default"] in
  match resolveImports env (exports pkg) input conditions with
  | Ret (p :: _) => Some (slash env (join env dir p))
  | _ => None
  end.

Definition resolveFromExportsNode (input : string) : resolution :=
  let conditions := ["node"; "require"; "default"] in
  match resolveImports env (exports pkg) input conditions with
  | Ret (p :: _) => browserResolver (slash env (join env name p)) None
  | _ => None
  end.

Definition resolveBrowser (input : string) : resolution :=
  or_else (browserResolver (name +:+ "/" +:+ input) (Some dir))
          (resolveFromExportsBrowser ("./" +:+ input)).

Definition resolveNode (input : string) : resolution :=
  or_else (nodeResolver (name +:+ "/" +:+ input) (Some dir))
          (resolveFromExportsNode ("./" +:+ input)).

Definition managerFile := resolveBrowser "manager".
Definition registerFile :=
  or_else (resolveBrowser "register") (resolveBrowser "register-panel").
Definition previewFile := resolveBrowser "preview".
Definition previewFileAbsolute :=
  browserResolver (name +:+ "/preview") (Some dir).
Definition presetFile := resolveNode "preset".

End Probes.

(** The constant [resolved]: the bare specifier resolved by the first
    strategy that succeeds. *)
Definition resolved (configDir name : string) : resolution :=
  let resolve :=
    if String.prefix "/" name then safeResolve env
    else safeResolveFrom env configDir in
  or_else (or_else (browserResolver name (Some configDir))
                   (nodeResolver name (Some configDir)))
          (resolve name).

Definition resolveAddonName (configDir name : string) (options : value)
    : option ResolvedAddon :=
  let resolved := resolved configDir name in
  let resolvedNode := nodeResolver name (Some configDir) in
  let resolvedBrowser := browserResolver name (Some configDir) in
  let pkg := readUpSync env resolved in
  if found resolved && found resolvedBrowser
     && matches_manager (path_of resolvedBrowser)
  then Some (Virtual {| name := name;
                        managerEntries := Some [path_of resolvedBrowser];
                        previewAnnotations := None;
                        presets := None |})
  else if found resolved && found resolvedNode
          && matches_preset (path_of resolvedNode)
  then Some (Presets (path_of resolvedNode))
  else
    match pkg with
    | None => None
    | Some pkg =>
        let managerFile := managerFile name pkg in
        let registerFile := registerFile name pkg in
        let previewFile := previewFile name pkg in
        let previewFileAbsolute := previewFileAbsolute name pkg in
        let presetFile := presetFile name pkg in
        if negb (found managerFile || found previewFile)
           && found presetFile
        then Some (Presets (path_of presetFile))
        else if found managerFile || found registerFile
                || found previewFile || found presetFile
        then Some (virtual_of name options managerFile registerFile
                     previewFile presetFile
                     (if found previewFileAbsolute
                      then BareAbsolute (path_of previewFile)
                                        (path_of previewFileAbsolute)
                      else Bare (path_of previewFile)))
        else if found resolved then Some (Presets (path_of resolved))
        else None
    end.

End Resolve.
End General.

(** *** Second revision: one consolidated collaborator *)

Module Consolidated.

Record ResolvedAll := {
  managerFile : resolution;
  registerFile : resolution;
  previewFile : resolution;
  previewFileAbsolute : resolution;
  presetFile : resolution;
  fallback : resolution
}.

Section Resolve.

(** [safeResolveAll(name, configDir)]; [None] when it returns nothing. *)
Variable safeResolveAll : string → string → option ResolvedAll.
Variable stripAbsNodeModulesPath : string → string.

Definition resolveAddonName (configDir name : string) (options : value)
    : option ResolvedAddon :=
  match safeResolveAll name configDir with
  | None => None
  | Some resolved =>
      let managerFile := managerFile resolved in
      let registerFile := registerFile resolved in
      let previewFile := previewFile resolved in
      let previewFileAbsolute := previewFileAbsolute resolved in
      let presetFile := presetFile resolved in
      if found managerFile || found registerFile
         || found previewFile || found presetFile
      then Some (virtual_of name options managerFile registerFile
                   previewFile presetFile
                   (if found previewFileAbsolute
                    then BareAbsolute
                           (if includes (path_of previewFile) "node_modules"
                            then stripAbsNodeModulesPath (path_of previewFile)
                            else path_of previewFile)
                           (path_of previewFileAbsolute)
                    else Bare (path_of previewFile)))
      else if found (fallback resolved)
      then Some (Presets (path_of (fallback resolved)))
      else None
  end.

End Resolve.
End Consolidated.

(** *** The two revisions side by side *)

Section SameEntries.

Variable env : General.Collaborators.
Variable safeResolveAll : string → string → option Consolidated.ResolvedAll.

(** The consolidated collaborator answers exactly when the first revision
    finds a package, and then reports for each entry what the probes of the
    first revision find, with the direct resolution as its fallback. *)
Definition same_entries (configDir name : string) : Prop :=
  let resolved := General.resolved env configDir name in
  match General.readUpSync env resolved, safeResolveAll name configDir with
  | Some pkg, Some r =>
      Consolidated.managerFile r = General.managerFile env name pkg
      ∧ Consolidated.registerFile r = General.registerFile env name pkg
      ∧ Consolidated.previewFile r = General.previewFile env name pkg
      ∧ Consolidated.previewFileAbsolute r
        = General.previewFileAbsolute env name pkg
      ∧ Consolidated.presetFile r = General.presetFile env name pkg
      ∧ Consolidated.fallback r = resolved
  | None, None => True
  | _, _ => False
  end.

End SameEntries.

(** The object a resolved addon is at run time. *)
Definition annotation_to_value (a : PreviewAnnotation) : value :=
  match a with
  | Bare p => VStr p
  | BareAbsolute bare absolute =>
      VObj (<["absolute" := VStr absolute]> {["bare" := VStr bare]})
  end.

Definition optional_key (k : string) (v : option value)
    (o : gmap string value) : gmap string value :=
  match v with
  | Some v => <[k := v]> o
  | None => o
  end.

Definition addon_to_obj (r : ResolvedAddon) : gmap string value :=
  match r with
  | Presets name => <["name" := VStr name]> {["type" := VStr "presets"]}
  | Virtual v =>
      optional_key "presets"
        ((λ l, VArr ((λ '(n, o),
                 VObj (<["options" := o]> {["name" := VStr n]})) <$> l))
           <$> presets v)
        (optional_key "previewAnnotations"
           ((λ l, VArr (annotation_to_value <$> l)) <$> previewAnnotations v)
           (optional_key "managerEntries"
              ((λ l, VArr (VStr <$> l)) <$> managerEntries v)
              (<["name" := VStr (name v)]> {["type" := VStr "virtual"]})))
  end.

(** ** Preset loading *)

Inductive log_entry :=
| LogWarn (msg : string)       (* [logger.warn(msg)] *)
| LogErrorMsg (msg : string)   (* [logger.error(msg)] *)
| LogError (e : error).        (* [logger.error(e)] *)

(** Computations that log, may throw, and may fail to return. *)
Definition M (A : Type) : Type := option (list log_entry * outcome A).

Definition ret {A} (a : A) : M A := Some ([], Ret a).
Definition throw {A} (e : error) : M A := Some ([], Threw e).
Definition log (x : log_entry) : M unit := Some ([x], Ret tt).

Definition bind {A B} (m : M A) (f : A → M B) : M B :=
  match m with
  | None => None
  | Some (l, Threw e) => Some (l, Threw e)
  | Some (l, Ret a) =>
      match f a with
      | None => None
      | Some (l', r) => Some (l ++ l', r)
      end
  end.

(** [try { m } catch (e) { h e }] *)
Definition try_catch {A} (m : M A) (h : error → M A) : M A :=
  match m with
  | None => None
  | Some (l, Ret a) => Some (l, Ret a)
  | Some (l, Threw e) =>
      match h e with
      | None => None
      | Some (l', r) => Some (l ++ l', r)
      end
  end.

Definition of_outcome {A} (o : outcome A) : M A := Some ([], o).

(** What a call that is not awaited hands back at once: the value the
    function returns, or the error it throws. *)
Definition returned (p : promise) : M value :=
  match p with
  | Some o => Some ([], o)
  | None => None
  end.

Notation "'let*' x ':=' m 'in' k" := (bind m (λ x, k))
  (at level 10, x name, m at level 100, k at level 200).

Fixpoint for_each {A B} (f : A → M B) (l : list A) : M (list B) :=
  match l with
  | [] => ret []
  | x :: l =>
      let* y := f x in
      let* ys := for_each f l in
      ret (y :: ys)
  end.

(** The presets started together by [Promise.all], once each of them has
    settled. *)
Fixpoint all_settled {A} (ms : list (M A))
    : option (list (list log_entry * outcome A)) :=
  match ms with
  | [] => Some []
  | m :: ms =>
      match m, all_settled ms with
      | Some r, Some rs => Some (r :: rs)
      | _, _ => None
      end
  end.

Definition rejections {A} (rs : list (list log_entry * outcome A))
    : list error :=
  omap (λ r, match r.2 with Threw e => Some e | Ret _ => None end) rs.

Definition fulfilled {A} (rs : list (list log_entry * outcome A)) : list A :=
  omap (λ r, match r.2 with Ret a => Some a | Threw _ => None end) rs.

Definition is_str (v : value) (s : string) : bool :=
  match v with VStr s' => bool_decide (s' = s) | _ => false end.

Definition dquote : string := String (Ascii.ascii_of_nat 34) "".
Definition newline : string := String (Ascii.ascii_of_nat 10) "".

Section Load.

Variable fnBody : nat → value → list value → prog.
Variable fnName : nat → string.          (* [f.name] *)
(** Whether a call of the function hands back a promise, as every [async]
    function does; if not, the tree of [fnBody] is what the call returns or
    throws. *)
Variable fnAsync : nat → bool.
Variable ToString : value → string.
(** [JSON.stringify]: it throws on what it cannot serialise (a cycle, a
    BigInt, a [toJSON] that throws). *)
Variable JSON_stringify : value → outcome string.
(** Importing the default export of a module; it may throw. *)
Variable interopRequireDefault : value → outcome value.
(** Either revision of the resolver, as [map] calls it: with whatever
    values the configuration holds. *)
Variable resolveAddonName :
  value → value → value → outcome (option ResolvedAddon).
(** The job queue: the order in which the messages of presets loaded
    together reach the logger, and the first of several rejections. *)
Variable merge : list (list log_entry) → list log_entry.
Variable race : list error → error.

(** [v[k]] for the property names the loader reads. *)
Definition get_prop (v : value) (k : string) : outcome value :=
  match v with
  | VUndef | VNull =>
      Threw (TypeError ("Cannot read properties of " +:+ ToString v))
  | VObj o => Ret (default VUndef (o !! k))
  | VArr l =>
      Ret (if bool_decide (k = "length") then VNum (Z.of_nat (length l))
           else default VUndef (indexed l !! k))
  | VStr s =>
      Ret (if bool_decide (k = "length") then VNum (Z.of_nat (String.length s))
           else default VUndef (indexed (chars s) !! k))
  | VFun id => Ret (if bool_decide (k = "name") then VStr (fnName id)
                    else VUndef)
  | VApply _ _ => Ret (if bool_decide (k = "name") then VStr "apply"
                       else VUndef)
  | VBool _ | VNum _ => Ret VUndef
  end.

(** [[...v]] *)
Definition iterate (v : value) : outcome (list value) :=
  match v with
  | VArr l => Ret l
  | VStr s => Ret (chars s)
  | _ => Threw (TypeError (ToString v +:+ " is not iterable"))
  end.

Definition warning (input : value) (level : nat) : outcome string :=
  match JSON_stringify input with
  | Threw e => Threw e
  | Ret json =>
      Ret (if bool_decide (0 < level) then
             "  Failed to load preset: " +:+ json
               +:+ " on level " +:+ pretty level
           else "  Failed to load preset: " +:+ json)
  end.

Definition map (storybookOptions : gmap string value) (item : value)
    : M value :=
  let configDir := default VUndef (storybookOptions !! "configDir") in
  let options :=
    match item with
    | VObj o =>
        let v := default VUndef (o !! "options") in
        if truthy v then v else VUndef
    | _ => VUndef
    end in
  let name :=
    match item with
    | VObj o => default VUndef (o !! "name")
    | _ => item
    end in
  match resolveAddonName configDir name options with
  | Threw _ =>
      let* _ := log (LogErrorMsg
        ("Addon value should end in /manager or /preview or /register OR it should be a valid preset https://storybook.js.org/docs/react/addons/writing-presets/"
         +:+ newline +:+ ToString item)) in
      ret VUndef
  | Ret None =>
      let* _ := log (LogWarn
        ("Could not resolve addon " +:+ dquote +:+ ToString name +:+ dquote
         +:+ ", skipping. Is it installed?")) in
      ret VUndef
  | Ret (Some resolved) =>
      ret (VObj (spread (if truthy options then {["options" := options]}
                         else ∅)
                        (addon_to_obj resolved)))
  end.

Definition getContent (input : value) : M value :=
  let* type := of_outcome (get_prop input "type") in
  if is_str type "virtual" then
    ret (VObj (delete "name" (delete "type" (own_props input))))
  else
    let* n := of_outcome (get_prop input "name") in
    let name := if truthy n then n else input in
    of_outcome (interopRequireDefault name).

Section OneLevel.

Variable call : value → value → list value → promise.
Variable loadPresets : list value → nat → M (list loaded).

(** [f(...args)], not awaited.  A function that hands back a promise has
    returned before the promise settles, whatever it settles to; the promise
    is an object without own properties, neither an array nor iterable. *)
Definition invoke (f : value) (args : list value) : M value :=
  match f with
  | VFun id =>
      if fnAsync id then ret (VObj ∅) else returned (call f VUndef args)
  | VApply _ _ => ret (VObj ∅)
  | _ => throw (TypeError (ToString f +:+ " is not a function"))
  end.

Definition resolvePresetFunction (input presetOptions : value)
    (storybookOptions : gmap string value) : M (list value) :=
  if isFunction input then
    let* r := invoke input
                [VObj (spread storybookOptions (own_props presetOptions))] in
    of_outcome (iterate r)
  else
    match input with
    | VArr l => ret l
    | _ => ret []
    end.

(** The body of the [try] block of [loadPreset]. *)
Definition loadPreset_try (input : value) (level : nat)
    (storybookOptions : gmap string value) : M (list loaded) :=
  let* n := of_outcome (get_prop input "name") in
  let name := if truthy n then n else input in
  let* o := of_outcome (get_prop input "options") in
  let presetOptions := if truthy o then o else VObj ∅ in
  let* contents := getContent input in
  let* contents :=
    if isFunction contents then
      invoke contents [VObj storybookOptions; presetOptions]
    else ret contents in
  match contents with
  | VArr subPresets => loadPresets subPresets (level + 1)
  | VObj contents =>
      let addonsInput := default VUndef (contents !! "addons") in
      let presetsInput := default VUndef (contents !! "presets") in
      let rest := delete "presets" (delete "addons" contents) in
      let* subPresets :=
        resolvePresetFunction presetsInput presetOptions storybookOptions in
      let* subAddons :=
        resolvePresetFunction addonsInput presetOptions storybookOptions in
      let* fromPresets := loadPresets subPresets (level + 1) in
      let* mapped := for_each (map storybookOptions) subAddons in
      let* fromAddons := loadPresets (filter truthy mapped) (level + 1) in
      ret (fromPresets ++ fromAddons ++ [Loaded name rest presetOptions])
  | _ => throw (JsError (ToString input +:+ " is not a valid preset"))
  end.

Definition loadPreset (input : value) (level : nat)
    (storybookOptions : gmap string value) : M (list loaded) :=
  try_catch (loadPreset_try input level storybookOptions)
    (λ e,
      let* warning := of_outcome (warning input level) in
      let* _ := log (LogWarn warning) in
      let* _ := log (LogError e) in
      ret []).

End OneLevel.

Definition merged (logs : list (list log_entry)) : list log_entry :=
  match logs with
  | [l] => l
  | _ => merge logs
  end.

Definition first_rejection (es : list error) : error :=
  match es with
  | [e] => e
  | _ => race es
  end.

(** [await Promise.all(ms)]: it fulfils with all the results, in input
    order, or rejects with the first rejection.  It is [None] as long as one
    of [ms] has not settled: until then neither the order of the messages
    nor the first rejection is known. *)
Definition promise_all {A} (ms : list (M A)) : M (list A) :=
  match all_settled ms with
  | None => None
  | Some rs =>
      Some (merged (rs.*1),
            match rejections rs with
            | [] => Ret (fulfilled rs)
            | es => Threw (first_rejection es)
            end)
  end.

Fixpoint loadPresets (fuel : nat) (storybookOptions : gmap string value)
    (presets : list value) (level : nat) : M (list loaded) :=
  match presets with
  | [] => ret []
  | _ =>
      match fuel with
      | O => None
      | S n =>
          let* all :=
            promise_all
              ((λ preset,
                 loadPreset (call fnBody ToString n)
                   (loadPresets n storybookOptions)
                   preset level storybookOptions) <$> presets) in
          ret (foldl (λ acc loaded, acc ++ loaded) [] all)
      end
  end.

(** [getPresets]: load once, then hand out [apply]. *)
Definition getPresets (fuel : nat) (presets : list value)
    (storybookOptions : gmap string value) : M value :=
  let* loadedPresets := loadPresets fuel storybookOptions presets 0 in
  ret (VObj {["apply" := VApply loadedPresets storybookOptions]}).

End Load.

(** ** The entry point of the preset module *)

(** [/@storybook[\\\\/]preset-typescript/.test(s)]: the name of the
    TypeScript preset somewhere in [s], written with a slash or with a
    backslash. *)
Definition names_preset_typescript (s : string) : bool :=
  includes s "@storybook/preset-typescript"
  || includes s "@storybook\preset-typescript".

Section Host.

Variable fnBody : nat → value → list value → prog.
Variable fnName : nat → string.
Variable fnAsync : nat → bool.
Variable ToString : value → string.
Variable JSON_stringify : value → outcome string.
Variable interopRequireDefault : value → outcome value.
Variable resolveAddonName :
  value → value → value → outcome (option ResolvedAddon).
Variable merge : list (list log_entry) → list log_entry.
Variable race : list error → error.
(** [loadCustomPresets(options)]: the presets found in the configuration
    directory. *)
Variable loadCustomPresets : gmap string value → outcome value.

(** The callback of [presetsConfig.filter]. *)
Definition keepsPreset (preset : value) : outcome bool :=
  match
    match preset with
    | VStr _ => Ret preset
    | _ => get_prop fnName ToString preset "name"
    end
  with
  | Ret presetName =>
      Ret (negb (names_preset_typescript (to_key ToString presetName)))
  | Threw e => Threw e
  end.

Fixpoint filterPresetsConfig (presetsConfig : list value)
    : outcome (list value) :=
  match presetsConfig with
  | [] => Ret []
  | preset :: rest =>
      match keepsPreset preset with
      | Threw e => Threw e
      | Ret keep =>
          match filterPresetsConfig rest with
          | Threw e => Threw e
          | Ret kept => Ret (if keep then preset :: kept else kept)
          end
      end
  end.

(** A destructuring default: [= []] applies to a missing key and to
    [undefined]. *)
Definition or_empty_list (v : option value) : value :=
  match v with
  | None | Some VUndef => VArr []
  | Some v => v
  end.

Definition loadAllPresets (fuel : nat) (options : gmap string value)
    : M value :=
  let corePresets := or_empty_list (options !! "corePresets") in
  let overridePresets := or_empty_list (options !! "overridePresets") in
  let restOptions := delete "overridePresets" (delete "corePresets" options) in
  let* core := of_outcome (iterate ToString corePresets) in
  let* found := of_outcome (loadCustomPresets options) in
  let* custom := of_outcome (iterate ToString found) in
  let* overrides := of_outcome (iterate ToString overridePresets) in
  let presetsConfig := core ++ custom ++ overrides in
  let* filteredPresetConfig :=
    of_outcome (filterPresetsConfig presetsConfig) in
  let* _ :=
    if bool_decide (length filteredPresetConfig < length presetsConfig) then
      log (LogWarn
        "Storybook now supports TypeScript natively. You can safely remove `@storybook/preset-typescript`.")
    else ret tt in
  getPresets fnBody fnName fnAsync ToString JSON_stringify
    interopRequireDefault resolveAddonName merge race
    fuel filteredPresetConfig restOptions.

End Host.

(** ** The bundling script (lines 1-221) *)

Module Bundle.

Inductive Formats := esm | cjs.

Definition Formats_eqb (a b : Formats) : bool :=
  match a, b with
  | esm, esm | cjs, cjs => true
  | _, _ => false
  end.

(** The [bundler] section of a package manifest; a field left out is
    [None]. *)
Record BundlerConfig := {
  entries : option (list string);
  nodeEntries : option (list string);
  browserEntries : option (list string);
  externals : option (list string);
  platform : option string;
  pre : option string;
  post : option string;
  formats : option (list Formats)
}.

Record PackageJsonWithBundlerConfig := {
  name : option string;
  dependencies : option (list (string * string));
  peerDependencies : option (list (string * string));
  bundler : BundlerConfig
}.

(** [{ tsconfig, dts: { entry, resolve: true } }] *)
Record DtsConfigSection := {
  tsconfig : string;
  dts_entry : list string
}.

(** What the [esbuildOptions] callback leaves in the object it is given. *)
Record ESBuildSettings := {
  conditions : option (list string);
  esbuildPlatform : string;
  logLevel : string;
  legalComments : string;
  minifyWhitespace : bool;
  minifyIdentifiers : bool;
  minifySyntax : bool
}.

(** The argument of one [build] call. *)
Record Options := {
  treeshake : bool;                 (* [false] where the key is not given *)
  silent : bool;
  entry : list string;
  watch : bool;
  outDir : string;
  format : list Formats;
  target : string;
  clean : bool;
  dts : option DtsConfigSection;
  buildPlatform : string;
  alias : list (string * string);   (* [esbuildPlugins: [aliasPlugin(..)]] *)
  external : list (option string);
  esbuildOptions : ESBuildSettings
}.

(** What the script does to the outside, in the order it does it. *)
Inductive action :=
| Exec (command cwd : string) (debug : bool)
| EmptyDir (dir : string)
| Build (tasks : list Options)      (* the builds awaited together *)
| WriteMappers (files : list (string * string))
                                    (* the mapper files awaited together *)
| ConsoleLog (msg : string)
| ConsoleError (e : error)
| Exit (code : Z).

Definition Script (A : Type) : Type := list action * outcome A.

Definition pure {A} (a : A) : Script A := ([], Ret a).

Definition andThen {A B} (m : Script A) (f : A → Script B) : Script B :=
  match m with
  | (t, Threw e) => (t, Threw e)
  | (t, Ret a) => let '(t', r) := f a in (t ++ t', r)
  end.

(** An effect: it is recorded, and succeeds or fails as the outside
    decides. *)
Definition perform {A} (a : action) (r : outcome A) : Script A := ([a], r).

Definition when (b : bool) (m : Script unit) : Script unit :=
  if b then m else pure tt.

Notation "'let!' x ':=' m 'in' k" := (andThen m (λ x, k))
  (at level 10, x name, m at level 100, k at level 200).

(** [s.replace(pattern, replacement)] for a string pattern: the first
    occurrence only. *)
Fixpoint replace (s pattern replacement : string) : string :=
  if String.prefix pattern s then
    replacement +:+ String.substring (String.length pattern)
                      (String.length s - String.length pattern) s
  else
    match s with
    | EmptyString => EmptyString
    | String c r => String c (replace r pattern replacement)
    end.

(** The outside world of the script. *)
Record World := {
  readJson : string → outcome PackageJsonWithBundlerConfig;
  exec : string → string → bool → outcome unit;
  emptyDir : string → outcome unit;
  pathExists : string → bool;
  (** [Promise.all] over the builds, and over the mapper files, that were
      started *)
  buildAll : list Options → outcome unit;
  writeAll : list (string * string) → outcome unit;
  process_cwd : string;
  dirname_ : string;                       (* [__dirname] *)
  join : list string → string;
  dirname : string → string;
  relative : string → string → string;
  parse : string → string * string;        (* [{ name, dir }] *)
  resolve : string → string;
  toPosix : string → string;   (* [.split(path.sep).join(path.posix.sep)] *)
  slash : string → string
}.

Section Script.

Variable w : World.

(** The constant [cwd] of the module. *)
Definition cwd : string := process_cwd w.

Definition hasFlag (flags : list string) (name : string) : bool :=
  match List.find (λ s, String.prefix ("--" +:+ name) s) flags with
  | Some s => negb (bool_decide (s = ""))
  | None => false
  end.

Definition getESBuildOptions (optimized : bool) (conditions : option (list string))
    (platform : string) : ESBuildSettings :=
  {| conditions := conditions;
     esbuildPlatform := platform;
     logLevel := "error";
     legalComments := "none";
     minifyWhitespace := optimized;
     minifyIdentifiers := false;
     minifySyntax := optimized |}.

Definition getDTSConfigs (formats : list Formats) (entries : list string)
    (optimized : bool) : option Formats * DtsConfigSection * bool :=
  let tsConfigPath := join w [cwd; "tsconfig.json"] in
  let tsConfigExists := pathExists w tsConfigPath in
  let dtsBuild :=
    if optimized && bool_decide (is_Some (head formats)) && tsConfigExists
    then head formats else None in
  let dtsConfig := {| tsconfig := tsConfigPath; dts_entry := entries |} in
  (dtsBuild, dtsConfig, tsConfigExists).

(** The path and the text of the file [generateDTSMapperFile] writes. *)
Definition generateDTSMapperFile (file : string) : string * string :=
  let '(entryName, dir) := parse w file in
  let pathName :=
    join w [process_cwd w; replace dir "./src" "dist";
            entryName +:+ ".d.ts"] in
  let srcName := join w [process_cwd w; file] in
  let rel := toPosix w (relative w (dirname w pathName) (dirname w srcName)) in
  (pathName,
   "// dev-mode" +:+ newline
   +:+ "export * from '" +:+ rel +:+ "/" +:+ entryName +:+ "';").

Definition register : string :=
  "node -r " +:+ dirname_ w +:+ "/../node_modules/esbuild-register/register.js ".

(** The array [tasks] of [run] at the time it is awaited: one element for
    each [build] that was started. *)
Definition tasks (cwd : string) (pkg : PackageJsonWithBundlerConfig)
    (flags : list string) : list Options :=
  let name := name pkg in
  let dependencies := dependencies pkg in
  let peerDependencies := peerDependencies pkg in
  let entries := default [] (entries (bundler pkg)) in
  let nodeEntries := default [] (nodeEntries (bundler pkg)) in
  let browserEntries := default [] (browserEntries (bundler pkg)) in
  let extraExternals := default [] (externals (bundler pkg)) in
  let platform := platform (bundler pkg) in
  let formats := default [esm; cjs] (formats (bundler pkg)) in
  let watch := hasFlag flags "watch" in
  let optimized := hasFlag flags "optimized" in
  let outDir := join w [process_cwd w; "dist"] in
  let externals :=
    [name] ++ (Some <$> extraExternals)
    ++ (Some <$> (fst <$> default [] dependencies))
    ++ (Some <$> (fst <$> default [] peerDependencies)) in
  let '(dtsBuild, dtsConfig, tsConfigExists) :=
    getDTSConfigs formats entries optimized in
  (if existsb (Formats_eqb esm) formats
      && bool_decide (0 < length (entries ++ browserEntries))
   then
     [{| treeshake := true;
         silent := true;
         entry := (λ e, slash w (join w [cwd; e]))
                    <$> (entries ++ browserEntries);
         watch := watch;
         outDir := outDir;
         format := [esm];
         target := "chrome100";
         clean := negb watch;
         dts := match dtsBuild with
                | Some esm => Some dtsConfig
                | _ => None
                end;
         buildPlatform := path_of (or_else platform (Some "browser"));
         alias :=
           [("process", resolve w "../node_modules/process/browser.js");
            ("util", resolve w "../node_modules/util/util.js")];
         external := externals;
         esbuildOptions :=
           getESBuildOptions optimized (Some ["module"])
             (path_of (or_else platform (Some "browser"))) |}]
   else [])
  ++ (if existsb (Formats_eqb cjs) formats
         && bool_decide (0 < length (entries ++ nodeEntries))
      then
        [{| treeshake := false;
            silent := true;
            entry := (λ e, slash w (join w [cwd; e]))
                       <$> (entries ++ nodeEntries);
            watch := watch;
            outDir := outDir;
            format := [cjs];
            target := "node16";
            clean := negb watch;
            dts := match dtsBuild with
                   | Some cjs => Some dtsConfig
                   | _ => None
                   end;
            buildPlatform := "node";
            alias := [];
            external := externals;
            esbuildOptions := getESBuildOptions optimized None "node" |}]
      else []).

Definition run (cwd : string) (flags : list string) : Script unit :=
  let! pkg := ([], readJson w (join w [cwd; "package.json"])) in
  let entries := default [] (entries (bundler pkg)) in
  let pre := pre (bundler pkg) in
  let post := post (bundler pkg) in
  let formats := default [esm; cjs] (formats (bundler pkg)) in
  let! _ := when (found pre)
            (perform (Exec (register +:+ path_of pre) cwd false)
               (exec w (register +:+ path_of pre) cwd false)) in
  let reset := hasFlag flags "reset" in
  let optimized := hasFlag flags "optimized" in
  let! _ := when reset
            (perform (EmptyDir (join w [process_cwd w; "dist"]))
               (emptyDir w (join w [process_cwd w; "dist"]))) in
  let '(dtsBuild, dtsConfig, tsConfigExists) :=
    getDTSConfigs formats entries optimized in
  let tasks := tasks cwd pkg flags in
  let! _ := match tasks with
          | [] => pure tt
          | _ => perform (Build tasks) (buildAll w tasks)
          end in
  let! _ := when (tsConfigExists && negb optimized)
            (match entries with
             | [] => pure tt
             | _ =>
                 perform (WriteMappers (generateDTSMapperFile <$> entries))
                   (writeAll w (generateDTSMapperFile <$> entries))
             end) in
  let! _ := when (found post)
            (perform (Exec (register +:+ path_of post) cwd true)
               (exec w (register +:+ path_of post) cwd true)) in
  perform (ConsoleLog "done") (Ret tt).

(** The self-execution at the end of the file: run on the arguments after
    the first two, and leave with code 1 when the run fails. *)
Definition selfExecution (argv : list string) : list action :=
  let flags := drop 2 argv in
  match run cwd flags with
  | (t, Ret _) => t
  | (t, Threw e) =>
      t ++ match e with
           | Thrown _ => []
           | _ => [ConsoleError e]
           end
        ++ [Exit 1]
  end.

End Script.
End Bundle.

(** ** Sample presets *)

Module Samples.

Definition obj (l : list (string * value)) : gmap string value :=
  list_to_map l.

Definition plain (preset : gmap string value) : loaded :=
  Loaded (VStr "sample") preset (VObj ∅).

(** [P1 = {ext: [1]}], [P2 = {ext: [2]}] *)
Definition P1 : loaded := plain (obj [("ext", VArr [VNum 1])]).
Definition P2 : loaded := plain (obj [("ext", VArr [VNum 2])]).

(** [Q1 = {ext: {a: 1}}], [Q2 = {ext: {a: 2, b: 3}}] *)
Definition Q1 : loaded := plain (obj [("ext", VObj (obj [("a", VNum 1)]))]).
Definition Q2 : loaded :=
  plain (obj [("ext", VObj (obj [("a", VNum 2); ("b", VNum 3)]))]).

(** No user function is ever called. *)
Definition noFunctions : nat → value → list value → prog :=
  λ _ _ _, Done (Ret VUndef).

(** Function 0 throws, function 1 calls [apply] on its own key for ever,
    any other function returns its first argument. *)
Definition someFunctions (id : nat) (this : value) (args : list value)
    : prog :=
  match id with
  | 0 => Done (Threw (JsError "broken extension"))
  | 1 =>
      match nth_arg 1 args with
      | VObj o =>
          match o !! "presets" with
          | Some (VObj p) =>
              Invoke (default VUndef (p !! "apply")) VUndef
                [VStr "ext"; nth_arg 0 args] Done
          | _ => Done (Ret VUndef)
          end
      | _ => Done (Ret VUndef)
      end
  | _ => Done (Ret (nth_arg 0 args))
  end.

Definition noString : value → string := λ _, "".

(** An installed package [addon] and a project configured in
    [/project/.storybook]. *)
Definition addonDir : string := "/project/node_modules/addon".
Definition configDir : string := "/project/.storybook".

Definition addonPackage : Package :=
  {| path := addonDir +:+ "/package.json"; exports := VUndef |}.

Definition table (l : list (string * string)) (k : string) : resolution :=
  (list_to_map l : gmap string string) !! k.

(** Collaborators of the first revision that resolve the listed
    specifiers with the browser and with the node strategy, have no
    export map, and find the manifest of [addon]. *)
Definition collaborators (browser node : list (string * string))
    : General.Collaborators :=
  {| General.browserMain := λ _ input, Ret (table browser input);
     General.browserMainNoContext := λ _ input, Ret (table browser input);
     General.nodeMain := λ _ input, Ret (table node input);
     General.safeResolve := λ _, None;
     General.safeResolveFrom := λ _ _, None;
     General.resolveImports := λ _ _ _, Threw (JsError "no export map");
     General.readUpSync := λ _, Some addonPackage;
     General.dirname := λ _, addonDir;
     General.join := λ a b, a +:+ "/" +:+ b;
     General.slash := λ p, p;
     General.cwd := "/project" |}.

Definition entries (manager preview absolute preset fallback : resolution)
    (name configDir : string) : option Consolidated.ResolvedAll :=
  Some {| Consolidated.managerFile := manager;
          Consolidated.registerFile := None;
          Consolidated.previewFile := preview;
          Consolidated.previewFileAbsolute := absolute;
          Consolidated.presetFile := preset;
          Consolidated.fallback := fallback |}.

Definition managerPath : string := addonDir +:+ "/manager.js".
Definition presetPath : string := addonDir +:+ "/preset.js".
Definition previewPath : string := addonDir +:+ "/preview.js".

(** The specifier [addon/manager] names the manager file directly; the
    package [addon] has a manager entry only. *)
Definition managerOnly : General.Collaborators :=
  collaborators [("addon/manager", managerPath)] [].
Definition directManagerAll :=
  entries None None None None (Some managerPath).
Definition managerOnlyAll :=
  entries (Some managerPath) None None None None.

(** The package [addon] has a preset entry only. *)
Definition presetOnly : General.Collaborators :=
  collaborators [] [("addon/preset", presetPath)].
Definition presetOnlyAll :=
  entries None None None (Some presetPath) None.

(** The package [addon] has a preview entry only, found under
    [node_modules]. *)
Definition previewOnly : General.Collaborators :=
  collaborators [("addon/preview", previewPath)] [].
Definition previewOnlyAll :=
  entries None (Some previewPath) (Some previewPath) None None.
Definition stripToAddon : string → string := λ _, "addon/preview.js".
Definition keepPath : string → string := λ p, p.

(** The resolver as [map] calls it. *)
Definition resolveValues
    (resolveAddonName : string → string → value → option ResolvedAddon)
    (configDir name options : value) : outcome (option ResolvedAddon) :=
  match name with
  | VStr name =>
      Ret (resolveAddonName
             (match configDir with VStr d => d | _ => "" end) name options)
  | _ => Threw (TypeError "name.startsWith is not a function")
  end.

(** Modules: [good] exports one extension, [nested] lists [good] as a
    preset and [addon] as an addon, [broken] exports a number, any other
    name cannot be imported. *)
Definition modules (name : value) : outcome value :=
  if is_str name "good" then Ret (VObj (obj [("webpack", VNum 1)]))
  else if is_str name "nested" then
    Ret (VObj (obj [("presets", VArr [VStr "good"]);
                    ("addons", VArr [VStr "addon"]);
                    ("babel", VNum 2)]))
  else if is_str name "broken" then Ret (VNum 7)
  else Threw (JsError "Cannot find module").

Definition hostOptions : gmap string value :=
  obj [("configDir", VStr configDir)].

Definition noName : nat → string := λ _, "".

Definition good : loaded :=
  Loaded (VStr "good") (obj [("webpack", VNum 1)]) (VObj ∅).
Definition addon : loaded :=
  Loaded (VStr "addon") (obj [("managerEntries", VArr [VStr managerPath])])
    (VObj ∅).
Definition nested : loaded :=
  Loaded (VStr "nested") (obj [("babel", VNum 2)]) (VObj ∅).

(** Presets contributing a function under [ext], a falsy value, and
    options that collide with the arguments and the host options. *)
Definition Throwing : loaded := plain (obj [("ext", VFun 0)]).
Definition Looping : loaded := plain (obj [("ext", VFun 1)]).
Definition Zero : loaded := plain (obj [("ext", VNum 0)]).
Definition Returning : loaded :=
  Loaded (VStr "sample") (obj [("ext", VFun 2)])
    (VObj (obj [("a", VStr "preset"); ("presets", VStr "preset")])).
Definition someArgs : value :=
  VObj (obj [("a", VStr "args"); ("b", VStr "args");
             ("presetsList", VStr "args")]).
Definition someOptions : gmap string value :=
  obj [("a", VStr "host"); ("b", VStr "host"); ("c", VStr "host")].

End Samples.

(** ** More samples *)

Module MoreSamples.

(** Nothing is installed: no specifier resolves and no manifest is
    found. *)
Definition nothingInstalled : General.Collaborators :=
  {| General.browserMain := λ _ _, Ret None;
     General.browserMainNoContext := λ _ _, Ret None;
     General.nodeMain := λ _ _, Ret None;
     General.safeResolve := λ _, None;
     General.safeResolveFrom := λ _ _, None;
     General.resolveImports := λ _ _ _, Threw (JsError "no export map");
     General.readUpSync := λ _, None;
     General.dirname := λ _, "";
     General.join := λ a b, a +:+ "/" +:+ b;
     General.slash := λ p, p;
     General.cwd := "/project" |}.

(** The package [addon] has a register, a preview and a preset entry. *)
Definition registerPath : string := Samples.addonDir +:+ "/register.js".
Definition registerAndPreset : General.Collaborators :=
  Samples.collaborators
    [("addon/register", registerPath);
     ("addon/preview", Samples.previewPath)]
    [("addon/preset", Samples.presetPath)].

Definition managerOnlyResult : CoreCommon_ResolvedAddonVirtual :=
  {| name := "addon";
     managerEntries := Some [Samples.managerPath];
     previewAnnotations := None;
     presets := None |}.

(** Modules: [good] exports one extension, [list] exports a sequence with
    [good] twice, [needy] lists the addon [missing], any other name cannot
    be imported. *)
Definition modules (name : value) : outcome value :=
  if is_str name "good" then Ret (VObj (Samples.obj [("webpack", VNum 1)]))
  else if is_str name "list" then Ret (VArr [VStr "good"; VStr "good"])
  else if is_str name "needy" then
    Ret (VObj (Samples.obj [("addons", VArr [VStr "missing"]);
                            ("babel", VNum 2)]))
  else Threw (JsError "Cannot find module").

(** [String(v)] on strings. *)
Definition toString (v : value) : string :=
  match v with VStr s => s | _ => "" end.

Definition needy : loaded :=
  Loaded (VStr "needy") (Samples.obj [("babel", VNum 2)]) (VObj ∅).

Definition virtualAddon : gmap string value :=
  Samples.obj [("type", VStr "virtual"); ("name", VStr "addon");
               ("managerEntries", VArr [VStr Samples.managerPath])].

Definition addonWithOptions : gmap string value :=
  Samples.obj [("name", VStr "addon");
               ("options", VObj (Samples.obj [("x", VNum 1)]))].

(** A job queue that delivers the messages of sibling presets in input
    order and lets the leftmost rejection come first. *)
Definition inOrder (logs : list (list log_entry)) : list log_entry :=
  concat logs.
Definition leftmost (es : list error) : error :=
  default (JsError "") (head es).

(** Functions 3 and above are [async]. *)
Definition asyncFrom3 (id : nat) : bool := bool_decide (3 ≤ id)%nat.
Definition noPromises : nat → bool := λ _, false.

(** [JSON.stringify] on specifiers: a string is quoted, an object is
    written without its entries; options that carry function 0 as their
    [toJSON] make it throw what that function throws. *)
Definition stringify (v : value) : outcome string :=
  match v with
  | VStr s => Ret (dquote +:+ s +:+ dquote)
  | VObj o =>
      match o !! "options" with
      | Some (VObj options) =>
          match options !! "toJSON" with
          | Some (VFun 0) => Threw (JsError "broken extension")
          | _ => Ret "{}"
          end
      | _ => Ret "{}"
      end
  | _ => Ret ""
  end.

(** A specifier that names no installed module and whose options cannot
    be serialised. *)
Definition unserialisable : value :=
  VObj (Samples.obj [("name", VStr "absent");
                     ("options", VObj (Samples.obj [("toJSON", VFun 0)]))]).

(** Modules exporting functions: [throwing] computes its [presets] with
    function 0, [computed] is function 2, which returns the host options
    it is given, [later] is the [async] function 3; the other names are
    those of [modules]. *)
Definition functionModules (name : value) : outcome value :=
  if is_str name "throwing" then
    Ret (VObj (Samples.obj [("presets", VFun 0); ("babel", VNum 2)]))
  else if is_str name "computed" then Ret (VFun 2)
  else if is_str name "later" then Ret (VFun 3)
  else if is_str name "deferred" then
    Ret (VObj (Samples.obj [("presets", VFun 3); ("babel", VNum 2)]))
  else modules name.

(** Host options naming the TypeScript preset among the overrides. *)
Definition allOptions : gmap string value :=
  Samples.obj [("configDir", VStr Samples.configDir);
               ("corePresets", VArr [VStr "good"]);
               ("overridePresets",
                VArr [VStr "@storybook/preset-typescript"])].
Definition customPresets (options : gmap string value) : outcome value :=
  Ret (VArr [VStr "list"]).

(** A package with one entry, one dependency and a [pre] script, in a
    world where the [pre] script fails, or where every step succeeds. *)
Definition package (pre : option string)
    : Bundle.PackageJsonWithBundlerConfig :=
  {| Bundle.name := Some "pkg";
     Bundle.dependencies := Some [("react", "^18.0.0")];
     Bundle.peerDependencies := None;
     Bundle.bundler :=
       {| Bundle.entries := Some ["./src/index.ts"];
          Bundle.nodeEntries := None;
          Bundle.browserEntries := None;
          Bundle.externals := None;
          Bundle.platform := None;
          Bundle.pre := pre;
          Bundle.post := None;
          Bundle.formats := None |} |}.

Definition world (pre : option string) (preResult : outcome unit)
    : Bundle.World :=
  {| Bundle.readJson := λ _, Ret (package pre);
     Bundle.exec := λ _ _ _, preResult;
     Bundle.emptyDir := λ _, Ret tt;
     Bundle.pathExists := λ _, true;
     Bundle.buildAll := λ _, Ret tt;
     Bundle.writeAll := λ _, Ret tt;
     Bundle.process_cwd := "/pkg";
     Bundle.dirname_ := "/scripts/prepare";
     Bundle.join := λ l, foldr (λ a b, if bool_decide (b = "") then a
                                        else a +:+ "/" +:+ b) "" l;
     Bundle.dirname := λ p, p;
     Bundle.relative := λ _ _, "../src";
     Bundle.parse := λ _, ("index", "./src");
     Bundle.resolve := λ p, p;
     Bundle.toPosix := λ p, p;
     Bundle.slash := λ p, p |}.

(** The browser build of the sample package under [--optimized]. *)
Definition esmBuild : Bundle.Options :=
  {| Bundle.treeshake := true;
     Bundle.silent := true;
     Bundle.entry := ["/pkg/./src/index.ts"];
     Bundle.watch := false;
     Bundle.outDir := "/pkg/dist";
     Bundle.format := [Bundle.esm];
     Bundle.target := "chrome100";
     Bundle.clean := true;
     Bundle.dts :=
       Some {| Bundle.tsconfig := "/pkg/tsconfig.json";
               Bundle.dts_entry := ["./src/index.ts"] |};
     Bundle.buildPlatform := "browser";
     Bundle.alias :=
       [("process", "../node_modules/process/browser.js");
        ("util", "../node_modules/util/util.js")];
     Bundle.external := [Some "pkg"; Some "react"];
     Bundle.esbuildOptions :=
       Bundle.getESBuildOptions true (Some ["module"]) "browser" |}.

End MoreSamples.

(** * Properties *)

(** ** Extension application *)

Section ApplyFacts.

Context (fnBody : nat → value → list value → prog).
Context (ToString : value → string).

Local Abbreviation call := (call fnBody ToString).
Local Abbreviation applyPresets := (applyPresets fnBody ToString).

Lemma applyPresets_with_foldl c presets extension config args
    (so : gmap string value) :
  applyPresets_with c presets extension config args so
  = foldl (reducer c presets extension args so) (Some (Ret config)) presets.
Proof. destruct presets; reflexivity. Qed.

(** Once the accumulated promise is rejected no callback touches it. *)
Lemma reducer_rejected c all extension args (so : gmap string value) e p :
  reducer c all extension args so (Some (Threw e)) p = Some (Threw e).
Proof.
  destruct p as [n preset options]; unfold reducer.
  destruct (truthy _); simpl; [|reflexivity].
  destruct (isFunction _); reflexivity.
Qed.

Lemma foldl_reducer_rejected c all extension args
    (so : gmap string value) e rest :
  foldl (reducer c all extension args so) (Some (Threw e)) rest
  = Some (Threw e).
Proof.
  induction rest as [|p rest IH]; simpl; [reflexivity|].
  rewrite reducer_rejected. exact IH.
Qed.

Lemma spread_lookup (a b : gmap string value) k :
  spread a b !! k = match b !! k with Some v => Some v | None => a !! k end.
Proof.
  unfold spread. destruct (b !! k) eqn:Hb.
  - apply lookup_union_Some_l. exact Hb.
  - rewrite lookup_union_r; [reflexivity | exact Hb].
Qed.

(** C5: applying any extension key over an empty list of loaded presets
    settles with the seed configuration itself, whatever the key, the
    arguments and the host options; the same holds when the fold is
    reached through the [apply] closure. *)
Theorem applyPresets_empty_identity fuel extension config args
    (so : gmap string value) this :
  applyPresets fuel [] extension config args so = Some (Ret config)
  ∧ call (S fuel) (VApply [] so) this [VStr extension; config; args]
    = Some (Ret config).
Proof. split; reflexivity. Qed.

(** C6: when the accumulator and a contribution that is not a function
    are both sequences, the reducer yields the accumulator's elements
    followed by the contribution's; folding [ext] from the seed [[]] over
    [P1 = {ext: [1]}] and [P2 = {ext: [2]}] yields [[1, 2]]. *)
Theorem reducer_concatenates_sequences :
  (∀ c all extension args (so : gmap string value) a b n
     (preset : gmap string value) options,
     preset !! extension = Some (VArr b) →
     reducer c all extension args so (Some (Ret (VArr a)))
       (Loaded n preset options)
     = Some (Ret (VArr (a ++ b))))
  ∧ (∀ fuel args (so : gmap string value),
       applyPresets fuel [Samples.P1; Samples.P2] "ext" (VArr []) args so
       = Some (Ret (VArr [VNum 1; VNum 2]))).
Proof.
  split.
  - intros c all extension args so a b n preset options Hc.
    unfold reducer. rewrite Hc. reflexivity.
  - intros. reflexivity.
Qed.

(** C7: when the accumulator and a contribution that is not a function
    are both keyed structures, the reducer yields their shallow merge: a
    key of the contribution carries the contribution's value, any other
    key keeps the accumulator's; folding [ext] from the seed [{}] over
    [{ext: {a: 1}}] and [{ext: {a: 2, b: 3}}] yields [{a: 2, b: 3}]. *)
Theorem reducer_merges_keyed_structures :
  (∀ c all extension args (so : gmap string value) a b n
     (preset : gmap string value) options,
     preset !! extension = Some (VObj b) →
     ∃ merged : gmap string value,
       reducer c all extension args so (Some (Ret (VObj a)))
         (Loaded n preset options)
       = Some (Ret (VObj merged))
       ∧ ∀ k, merged !! k
              = match b !! k with Some v => Some v | None => a !! k end)
  ∧ (∀ fuel args (so : gmap string value),
       applyPresets fuel [Samples.Q1; Samples.Q2] "ext" (VObj ∅) args so
       = Some (Ret (VObj (Samples.obj [("a", VNum 2); ("b", VNum 3)])))).
Proof.
  split.
  - intros c all extension args so a b n preset options Hc.
    exists (spread a b). split.
    + unfold reducer. rewrite Hc. reflexivity.
    + intros k. apply spread_lookup.
  - intros. vm_compute. reflexivity.
Qed.

(** C8: when the function contributed by a preset throws, or the promise it
    returns rejects, [applyPresets] rejects with that very error, whatever
    the presets after it contribute (they may even never return): nothing
    is caught or substituted, and no later contribution is applied. *)
Theorem applyPresets_propagates_fault fuel all before n
    (preset : gmap string value) options after extension config args
    (so : gmap string value) extensionFn newConfig e :
  all = before ++ Loaded n preset options :: after →
  preset !! extension = Some extensionFn →
  isFunction extensionFn = true →
  foldl (reducer (call fuel) all extension args so)
        (Some (Ret config)) before = Some (Ret newConfig) →
  call fuel extensionFn (VObj preset)
    [newConfig; VObj (combinedOptions all so args options)]
  = Some (Threw e) →
  applyPresets fuel all extension config args so = Some (Threw e).
Proof.
  intros Hall Hc Hf Hbefore Hcall.
  unfold applyPresets. rewrite applyPresets_with_foldl.
  transitivity
    (foldl (reducer (call fuel) all extension args so) (Some (Ret config))
       (before ++ Loaded n preset options :: after)).
  { f_equal. exact Hall. }
  rewrite foldl_app, Hbefore.
  change (foldl ?f ?a (?x :: ?l)) with (foldl f (f a x) l).
  assert (Hstep : reducer (call fuel) all extension args so
                    (Some (Ret newConfig)) (Loaded n preset options)
                  = Some (Threw e)).
  { unfold reducer. rewrite Hc. simpl.
    destruct extensionFn; try discriminate Hf; simpl; exact Hcall. }
  rewrite Hstep. apply foldl_reducer_rejected.
Qed.

(** C9: the reducer leaves the accumulated promise as it is whenever the
    value under the extension key is falsy, not only when the key is
    missing: a contribution equal to 0, false, the empty string or null
    does not replace the accumulator. *)
Theorem reducer_skips_falsy c all extension args (so : gmap string value)
    accumulationPromise n (preset : gmap string value) options change :
  preset !! extension = Some change →
  change = VNum 0 ∨ change = VBool false ∨ change = VStr ""
    ∨ change = VNull ∨ change = VUndef →
  reducer c all extension args so accumulationPromise
    (Loaded n preset options)
  = accumulationPromise.
Proof.
  intros Hc Hfalsy. unfold reducer. rewrite Hc. simpl.
  destruct Hfalsy as [-> | [-> | [-> | [-> | ->]]]]; reflexivity.
Qed.

(** The same for a key the preset does not have. *)
Lemma reducer_skips_absent c all extension args (so : gmap string value)
    accumulationPromise n (preset : gmap string value) options :
  preset !! extension = None →
  reducer c all extension args so accumulationPromise
    (Loaded n preset options)
  = accumulationPromise.
Proof. intros Hc. unfold reducer. rewrite Hc. reflexivity. Qed.

Lemma spread_empty (a : gmap string value) : spread ∅ a = a.
Proof. unfold spread. apply (right_id_L ∅ (∪)). Qed.

(** C10: a function contribution is called with the accumulated value and
    the combined options, in which [presets] is the object holding the
    re-entrant [apply] and [presetsList] is the list of loaded presets,
    whatever the three sources hold under those names; under any other key
    the preset's own options come first, then the arguments of the call,
    then the host options. *)
Theorem combinedOptions_precedence c all extension args
    (so : gmap string value) newConfig n (preset : gmap string value)
    options extensionFn :
  preset !! extension = Some extensionFn →
  isFunction extensionFn = true →
  let combined := combinedOptions all so args options in
  reducer c all extension args so (Some (Ret newConfig))
    (Loaded n preset options)
  = c extensionFn (VObj preset) [newConfig; VObj combined]
  ∧ combined !! "presets" = Some (VObj {["apply" := VApply all so]})
  ∧ combined !! "presetsList" = Some (VArr (loaded_to_value <$> all))
  ∧ ∀ k, k ≠ "presets" → k ≠ "presetsList" →
      combined !! k
      = match own_props options !! k with
        | Some v => Some v
        | None =>
            match own_props args !! k with
            | Some v => Some v
            | None => so !! k
            end
        end.
Proof.
  intros Hc Hf combined. repeat split.
  - unfold reducer. rewrite Hc. simpl.
    destruct extensionFn; try discriminate Hf; reflexivity.
  - unfold combined, combinedOptions. apply lookup_insert_eq.
  - unfold combined, combinedOptions.
    rewrite lookup_insert_ne by discriminate. apply lookup_insert_eq.
  - intros k Hk1 Hk2. unfold combined, combinedOptions.
    rewrite !lookup_insert_ne by congruence.
    rewrite spread_empty, !spread_lookup. reflexivity.
Qed.

End ApplyFacts.

(** ** Preset loading *)

Lemma foldl_concat (acc : list loaded) (all : list (list loaded)) :
  foldl (λ acc loaded, acc ++ loaded) acc all = acc ++ concat all.
Proof.
  revert acc. induction all as [|x all IH]; intros acc; simpl.
  - rewrite app_nil_r. reflexivity.
  - rewrite IH, app_assoc. reflexivity.
Qed.

Section SettledFacts.

Context {A : Type}.
Implicit Types xs ys : list (M A).

Lemma all_settled_app xs ys rx ry :
  all_settled xs = Some rx → all_settled ys = Some ry →
  all_settled (xs ++ ys) = Some (rx ++ ry).
Proof.
  revert rx. induction xs as [|x xs IH]; intros rx Hx Hy.
  - injection Hx as <-. exact Hy.
  - simpl in Hx |- *. destruct x as [r|]; [|discriminate].
    destruct (all_settled xs) as [rs|]; [|discriminate].
    injection Hx as <-. rewrite (IH rs eq_refl Hy). reflexivity.
Qed.

Lemma all_settled_app_inv xs ys rs :
  all_settled (xs ++ ys) = Some rs →
  ∃ rx ry, all_settled xs = Some rx ∧ all_settled ys = Some ry
           ∧ rs = rx ++ ry.
Proof.
  revert rs. induction xs as [|x xs IH]; intros rs H.
  - exists [], rs. auto.
  - simpl in H |- *. destruct x as [r|]; [|discriminate].
    destruct (all_settled (xs ++ ys)) as [rs'|]; [|discriminate].
    injection H as <-.
    destruct (IH rs' eq_refl) as (rx & ry & -> & Hy & ->).
    exists (r :: rx), ry. auto.
Qed.

Lemma rejections_app (rx ry : list (list log_entry * outcome A)) :
  rejections (rx ++ ry) = rejections rx ++ rejections ry.
Proof. apply omap_app. Qed.

Lemma fulfilled_app (rx ry : list (list log_entry * outcome A)) :
  fulfilled (rx ++ ry) = fulfilled rx ++ fulfilled ry.
Proof. apply omap_app. Qed.

(** Presets that all return leave no rejection. *)
Lemma no_rejections xs rs :
  (∀ x l r, x ∈ xs → x = Some (l, r) → ∃ a, r = Ret a) →
  all_settled xs = Some rs → rejections rs = [].
Proof.
  revert rs. induction xs as [|x xs IH]; intros rs Hall H.
  - injection H as <-. reflexivity.
  - simpl in H. destruct x as [[l r]|]; [|discriminate].
    destruct (all_settled xs) as [rs'|] eqn:Hxs; [|discriminate].
    injection H as <-.
    destruct (Hall _ l r (list_elem_of_here _ _) eq_refl) as [a ->].
    unfold rejections. cbn [omap list_omap]. cbn.
    apply (IH rs'); [|reflexivity].
    intros y l' r' Hy. apply Hall. apply list_elem_of_further, Hy.
Qed.

End SettledFacts.

Section LoadFacts.

Context (fnBody : nat → value → list value → prog).
Context (fnName : nat → string).
Context (fnAsync : nat → bool).
Context (ToString : value → string).
Context (JSON_stringify : value → outcome string).
Context (interopRequireDefault : value → outcome value).
Context (resolveAddonName :
           value → value → value → outcome (option ResolvedAddon)).
Context (merge : list (list log_entry) → list log_entry).
Context (race : list error → error).

Local Abbreviation call := (call fnBody ToString).
Local Abbreviation get_prop := (get_prop fnName ToString).
Local Abbreviation getContent :=
  (getContent fnName ToString interopRequireDefault).
Local Abbreviation map := (map ToString resolveAddonName).
Local Abbreviation invoke := (invoke fnAsync ToString).
Local Abbreviation resolvePresetFunction :=
  (resolvePresetFunction fnAsync ToString).
Local Abbreviation warning := (warning JSON_stringify).
Local Abbreviation loadPreset_try :=
  (loadPreset_try fnName fnAsync ToString interopRequireDefault
     resolveAddonName).
Local Abbreviation loadPreset :=
  (loadPreset fnName fnAsync ToString JSON_stringify interopRequireDefault
     resolveAddonName).
Local Abbreviation loadPresets :=
  (loadPresets fnBody fnName fnAsync ToString JSON_stringify
     interopRequireDefault resolveAddonName merge race).
Local Abbreviation merged := (merged merge).
Local Abbreviation first_rejection := (first_rejection race).

Lemma loadPresets_nil fuel (so : gmap string value) level :
  loadPresets fuel so [] level = ret [].
Proof. destruct fuel; reflexivity. Qed.

(** With fuel left, the specifiers of a list are loaded together; once
    all of them have settled, the pass fulfils with their entries
    concatenated in input order, or rejects with the first rejection. *)
Lemma loadPresets_settled n (so : gmap string value) presets level rs :
  presets ≠ [] →
  all_settled ((λ preset,
                  loadPreset (call n) (loadPresets n so) preset level so)
                 <$> presets) = Some rs →
  loadPresets (S n) so presets level
  = Some (merged (rs.*1),
          match rejections rs with
          | [] => Ret (concat (fulfilled rs))
          | _ :: _ => Threw (first_rejection (rejections rs))
          end).
Proof.
  intros Hne H. destruct presets as [|p presets]; [done|].
  change (loadPresets (S n) so (p :: presets) level)
    with (let* all :=
            promise_all merge race
              ((λ preset,
                  loadPreset (call n) (loadPresets n so) preset level so)
                 <$> (p :: presets)) in
          ret (foldl (λ acc loaded, acc ++ loaded) [] all)).
  unfold promise_all. rewrite H. unfold bind.
  destruct (rejections rs); [|reflexivity].
  unfold ret. rewrite app_nil_r, foldl_concat. reflexivity.
Qed.

Lemma loadPresets_inv n (so : gmap string value) presets level lg r :
  presets ≠ [] →
  loadPresets (S n) so presets level = Some (lg, r) →
  ∃ rs,
    all_settled ((λ preset,
                    loadPreset (call n) (loadPresets n so) preset level so)
                   <$> presets) = Some rs
    ∧ lg = merged (rs.*1)
    ∧ r = match rejections rs with
          | [] => Ret (concat (fulfilled rs))
          | _ :: _ => Threw (first_rejection (rejections rs))
          end.
Proof.
  intros Hne.
  destruct (all_settled _) as [rs|] eqn:Hrs.
  - rewrite (loadPresets_settled _ _ _ _ _ Hne Hrs).
    intros [= <- <-]. eauto.
  - destruct presets as [|p presets]; [done|].
    change (loadPresets (S n) so (p :: presets) level)
      with (let* all :=
              promise_all merge race
                ((λ preset,
                    loadPreset (call n) (loadPresets n so) preset level so)
                   <$> (p :: presets)) in
            ret (foldl (λ acc loaded, acc ++ loaded) [] all)).
    unfold promise_all. rewrite Hrs. discriminate.
Qed.

(** A pass that returns: every specifier has returned, and the entries are
    theirs in input order. *)
Lemma loadPresets_Ret_inv n (so : gmap string value) presets level lg out :
  loadPresets (S n) so presets level = Some (lg, Ret out) →
  ∃ rs,
    all_settled ((λ preset,
                    loadPreset (call n) (loadPresets n so) preset level so)
                   <$> presets) = Some rs
    ∧ rejections rs = [] ∧ out = concat (fulfilled rs).
Proof.
  destruct presets as [|p presets].
  { intros [= <- <-]. exists []. auto. }
  intros H. apply loadPresets_inv in H as (rs & Hrs & _ & Hr); [|done].
  exists rs. destruct (rejections rs); [|discriminate].
  injection Hr as ->. auto.
Qed.

Lemma loadPresets_Ret_intro n (so : gmap string value) presets level rs :
  all_settled ((λ preset,
                  loadPreset (call n) (loadPresets n so) preset level so)
                 <$> presets) = Some rs →
  rejections rs = [] →
  ∃ lg, loadPresets (S n) so presets level
        = Some (lg, Ret (concat (fulfilled rs))).
Proof.
  intros Hrs Hrej. destruct presets as [|p presets].
  { injection Hrs as <-. exists []. reflexivity. }
  exists (merged (rs.*1)).
  assert (p :: presets ≠ []) as Hne by done.
  rewrite (loadPresets_settled _ _ _ _ _ Hne Hrs), Hrej.
  reflexivity.
Qed.

Lemma warning_returns input level json :
  JSON_stringify input = Ret json → ∃ w, warning input level = Ret w.
Proof. intros H. unfold warning. rewrite H. eauto. Qed.

(** A fault of the [try] block is reported and turned into no entry, when
    the warning can be built. *)
Lemma loadPreset_caught c rec input level (so : gmap string value) lt e w :
  loadPreset_try c rec input level so = Some (lt, Threw e) →
  warning input level = Ret w →
  loadPreset c rec input level so
  = Some (lt ++ [LogWarn w; LogError e], Ret []).
Proof.
  intros H Hw. unfold loadPreset, try_catch. rewrite H, Hw. reflexivity.
Qed.

(** When it cannot, the handler throws in its turn and nothing is logged. *)
Lemma loadPreset_uncaught c rec input level (so : gmap string value)
    lt e e' :
  loadPreset_try c rec input level so = Some (lt, Threw e) →
  JSON_stringify input = Threw e' →
  loadPreset c rec input level so = Some (lt, Threw e').
Proof.
  intros H Hw. unfold loadPreset, try_catch, warning. rewrite H, Hw.
  cbn. rewrite app_nil_r. reflexivity.
Qed.

(** [loadPreset] rejects only when the warning cannot be built. *)
Lemma loadPreset_returns c rec input level (so : gmap string value)
    json l r :
  JSON_stringify input = Ret json →
  loadPreset c rec input level so = Some (l, r) → ∃ rs, r = Ret rs.
Proof.
  intros Hj. destruct (warning_returns input level json Hj) as [w Hw].
  unfold loadPreset, try_catch.
  destruct (loadPreset_try c rec input level so) as [[l0 [a|e]]|];
    [| |discriminate].
  - intros [= <- <-]. eauto.
  - rewrite Hw. cbn. intros [= <- <-]. eauto.
Qed.

(** [map] reports what it cannot resolve and carries on. *)
Lemma map_returns (so : gmap string value) item l r :
  map so item = Some (l, r) → ∃ v, r = Ret v.
Proof.
  unfold map. destruct (resolveAddonName _ _ _) as [[resolved|]|e];
    intros [= <- <-]; eauto.
Qed.

(** What [loadPreset] returns for a specifier whose contents are a keyed
    structure with sub-lists that can be read, when the passes over the
    sub-lists return. *)
Lemma loadPreset_keyed n (so : gmap string value) input level nm op c0
    (contents : gmap string value) subPresets subAddons
    l1 fromPresets lm mapped l2 fromAddons :
  let name := if truthy nm then nm else input in
  let presetOptions := if truthy op then op else VObj ∅ in
  get_prop input "name" = Ret nm →
  get_prop input "options" = Ret op →
  getContent input = Some ([], Ret c0) →
  (if isFunction c0 then invoke (call n) c0 [VObj so; presetOptions]
   else ret c0) = Some ([], Ret (VObj contents)) →
  resolvePresetFunction (call n) (default VUndef (contents !! "presets"))
    presetOptions so = Some ([], Ret subPresets) →
  resolvePresetFunction (call n) (default VUndef (contents !! "addons"))
    presetOptions so = Some ([], Ret subAddons) →
  loadPresets n so subPresets (level + 1) = Some (l1, Ret fromPresets) →
  for_each (map so) subAddons = Some (lm, Ret mapped) →
  loadPresets n so (filter truthy mapped) (level + 1)
  = Some (l2, Ret fromAddons) →
  loadPreset (call n) (loadPresets n so) input level so
  = Some (l1 ++ lm ++ l2,
          Ret (fromPresets ++ fromAddons
               ++ [Loaded name (delete "presets" (delete "addons" contents))
                     presetOptions])).
Proof.
  intros name presetOptions Hn Ho Hc Hf Hp Ha H1 Hm H2.
  unfold loadPreset, loadPreset_try, try_catch.
  rewrite Hn, Ho, Hc. cbn [bind of_outcome].
  fold presetOptions. rewrite Hf.
  cbn [bind]. rewrite Hp. cbn [bind]. rewrite Ha. cbn [bind].
  rewrite H1. cbn [bind]. rewrite Hm. cbn [bind]. rewrite H2.
  cbn [bind ret app]. rewrite app_nil_r. reflexivity.
Qed.

(** A specifier whose module cannot be imported is a fault of the [try]
    block. *)
Lemma import_failure_faults c rec input level (so : gmap string value)
    nm op ty e :
  get_prop input "name" = Ret nm →
  get_prop input "options" = Ret op →
  get_prop input "type" = Ret ty →
  is_str ty "virtual" = false →
  interopRequireDefault (if truthy nm then nm else input) = Threw e →
  loadPreset_try c rec input level so = Some ([], Threw e).
Proof.
  intros Hn Ho Ht Hv Hi. unfold loadPreset_try, getContent.
  rewrite Hn, Ho, Ht. cbn [bind of_outcome]. rewrite Hv.
  cbn [bind of_outcome]. rewrite Hi. reflexivity.
Qed.

(** So is one whose module exports neither a function, a sequence nor a
    keyed structure. *)
Lemma malformed_contents_faults c rec input level (so : gmap string value)
    nm op ty contents :
  get_prop input "name" = Ret nm →
  get_prop input "options" = Ret op →
  get_prop input "type" = Ret ty →
  is_str ty "virtual" = false →
  interopRequireDefault (if truthy nm then nm else input) = Ret contents →
  isFunction contents = false →
  isArray contents = false →
  isObject contents = false →
  loadPreset_try c rec input level so
  = Some ([], Threw (JsError (ToString input +:+ " is not a valid preset"))).
Proof.
  intros Hn Ho Ht Hv Hi Hf Ha Hobj. unfold loadPreset_try, getContent.
  rewrite Hn, Ho, Ht. cbn [bind of_outcome]. rewrite Hv.
  cbn [bind of_outcome]. rewrite Hi. cbn [bind]. rewrite Hf.
  destruct contents; try discriminate; reflexivity.
Qed.

(** A function that hands back a promise is not waited for: what the
    loader sees is an object without own properties. *)
Lemma invoke_async c id args :
  fnAsync id = true → invoke c (VFun id) args = ret (VObj ∅).
Proof. intros H. unfold invoke. rewrite H. reflexivity. Qed.

(** So a module that is an [async] function is loaded as a preset without
    any key, whatever the function does. *)
Lemma async_contents_not_awaited n (so : gmap string value) input level
    nm op id :
  get_prop input "name" = Ret nm →
  get_prop input "options" = Ret op →
  getContent input = Some ([], Ret (VFun id)) →
  fnAsync id = true →
  loadPreset (call n) (loadPresets n so) input level so
  = Some ([], Ret [Loaded (if truthy nm then nm else input) ∅
                     (if truthy op then op else VObj ∅)]).
Proof.
  intros Hn Ho Hc Hid.
  rewrite (loadPreset_keyed n so input level nm op (VFun id) ∅ [] []
             [] [] [] [] [] [] Hn Ho Hc).
  - rewrite !delete_empty. reflexivity.
  - cbn [isFunction]. apply invoke_async, Hid.
  - reflexivity.
  - reflexivity.
  - apply loadPresets_nil.
  - reflexivity.
  - apply loadPresets_nil.
Qed.

(** The siblings of a specifier, before and after it, once all have
    settled. *)
Lemma all_settled_around {A} (f : value → M A) before x after rb r ra :
  all_settled (f <$> before) = Some rb →
  f x = Some r →
  all_settled (f <$> after) = Some ra →
  all_settled (f <$> before ++ x :: after) = Some (rb ++ r :: ra).
Proof.
  intros Hb Hx Ha. rewrite fmap_app, fmap_cons.
  apply all_settled_app; [exact Hb|].
  simpl. rewrite Hx, Ha. reflexivity.
Qed.

(** C3: a specifier on which the body of [loadPreset] faults and which
    [JSON.stringify] cannot serialise is not dropped: the handler throws
    while it builds the warning, so [loadPreset] rejects with that error
    and logs nothing of its own; and once the other specifiers of the list
    have settled, the whole pass rejects instead of returning their
    entries. *)
Theorem loadPresets_aborts_on_unreportable_fault n (so : gmap string value)
    before bad after level lt e e' rb ra :
  let load :=
    λ preset, loadPreset (call n) (loadPresets n so) preset level so in
  loadPreset_try (call n) (loadPresets n so) bad level so
  = Some (lt, Threw e) →
  JSON_stringify bad = Threw e' →
  all_settled (load <$> before) = Some rb →
  all_settled (load <$> after) = Some ra →
  load bad = Some (lt, Threw e')
  ∧ loadPresets (S n) so (before ++ bad :: after) level
    = Some (merged (rb.*1 ++ lt :: ra.*1),
            Threw (first_rejection
                     (rejections rb ++ e' :: rejections ra))).
Proof.
  intros load Hbad Hj Hb Ha.
  pose proof (loadPreset_uncaught _ _ _ _ _ _ _ _ Hbad Hj) as Hown.
  split; [exact Hown|].
  pose proof (all_settled_around load _ _ _ _ _ _ Hb Hown Ha) as Hall.
  assert (before ++ bad :: after ≠ []) as Hne by (by destruct before).
  rewrite (loadPresets_settled _ _ _ _ _ Hne Hall).
  rewrite fmap_app, fmap_cons, rejections_app.
  unfold rejections at 2 4. cbn [omap list_omap]. cbn.
  fold (rejections ra).
  destruct (rejections rb); reflexivity.
Qed.

(** C4: a specifier whose contents are a keyed structure with sub-lists
    that can be read contributes, when the passes over the sub-lists
    return, the entries loaded from its [presets] sub-list, then those
    loaded from its resolved [addons] sub-list, then one entry of its own
    made of its name, its contents without the [presets] and [addons]
    keys, and its options; in a list of specifiers its entries stand after
    those of the specifiers before it and before those of the specifiers
    after it. *)
Theorem loadPresets_depth_first n (so : gmap string value)
    before input after level nm op c0 (contents : gmap string value)
    subPresets subAddons l1 fromPresets lm mapped l2 fromAddons
    lb rb la ra :
  let name := if truthy nm then nm else input in
  let presetOptions := if truthy op then op else VObj ∅ in
  let entry :=
    Loaded name (delete "presets" (delete "addons" contents)) presetOptions in
  get_prop input "name" = Ret nm →
  get_prop input "options" = Ret op →
  getContent input = Some ([], Ret c0) →
  (if isFunction c0 then invoke (call n) c0 [VObj so; presetOptions]
   else ret c0) = Some ([], Ret (VObj contents)) →
  resolvePresetFunction (call n) (default VUndef (contents !! "presets"))
    presetOptions so = Some ([], Ret subPresets) →
  resolvePresetFunction (call n) (default VUndef (contents !! "addons"))
    presetOptions so = Some ([], Ret subAddons) →
  loadPresets n so subPresets (level + 1) = Some (l1, Ret fromPresets) →
  for_each (map so) subAddons = Some (lm, Ret mapped) →
  loadPresets n so (filter truthy mapped) (level + 1)
  = Some (l2, Ret fromAddons) →
  loadPresets (S n) so before level = Some (lb, Ret rb) →
  loadPresets (S n) so after level = Some (la, Ret ra) →
  loadPreset (call n) (loadPresets n so) input level so
  = Some (l1 ++ lm ++ l2, Ret (fromPresets ++ fromAddons ++ [entry]))
  ∧ ∃ lg,
      loadPresets (S n) so (before ++ input :: after) level
      = Some (lg, Ret (rb ++ (fromPresets ++ fromAddons ++ [entry]) ++ ra)).
Proof.
  intros name presetOptions entry Hn Ho Hc Hf Hp Ha H1 Hm H2 Hb Hafter.
  pose proof (loadPreset_keyed _ _ _ level _ _ _ _ _ _ _ _ _ _ _ _
                Hn Ho Hc Hf Hp Ha H1 Hm H2) as Hown.
  split; [exact Hown|].
  apply loadPresets_Ret_inv in Hb as (sb & Hsb & Hrb & ->).
  apply loadPresets_Ret_inv in Hafter as (sa & Hsa & Hra & ->).
  destruct (loadPresets_Ret_intro n so (before ++ input :: after) level
              (sb ++ (l1 ++ lm ++ l2,
                      Ret (fromPresets ++ fromAddons ++ [entry])) :: sa))
    as [lg Hlg].
  - apply all_settled_around; assumption.
  - rewrite rejections_app. unfold rejections at 2.
    cbn [omap list_omap]. cbn. fold (rejections sa).
    rewrite Hrb, Hra. reflexivity.
  - exists lg. rewrite Hlg. f_equal. f_equal.
    rewrite fulfilled_app, concat_app. f_equal.
Qed.

End LoadFacts.

(** ** Addon-name resolution *)

Section ResolveFacts.

Context (env : General.Collaborators).
Context (safeResolveAll : string → string → option Consolidated.ResolvedAll).
Context (stripAbsNodeModulesPath : string → string).

(** In the first revision a package with a preset entry and neither a
    manager nor a preview entry resolves to the preset file, once the
    package is probed. *)
Lemma general_preset_only configDir name options pkg :
  let resolved := General.resolved env configDir name in
  let resolvedBrowser := General.browserResolver env name (Some configDir) in
  let resolvedNode := General.nodeResolver env name (Some configDir) in
  found resolved && found resolvedBrowser
    && matches_manager (path_of resolvedBrowser) = false →
  found resolved && found resolvedNode
    && matches_preset (path_of resolvedNode) = false →
  General.readUpSync env resolved = Some pkg →
  found (General.presetFile env name pkg) = true →
  found (General.managerFile env name pkg) = false →
  found (General.previewFile env name pkg) = false →
  General.resolveAddonName env configDir name options
  = Some (Presets (path_of (General.presetFile env name pkg))).
Proof.
  intros resolved resolvedBrowser resolvedNode Hg1 Hg2 Hpkg Hp Hm Hv.
  unfold General.resolveAddonName.
  fold resolved resolvedBrowser resolvedNode.
  rewrite Hg1, Hg2, Hpkg. cbv zeta. rewrite Hm, Hv, Hp. reflexivity.
Qed.

(** C2: in the second revision a package for which the preset entry is
    found and neither the manager nor the preview entry is resolves to a
    virtual addon that lists the preset file among its presets, not to a
    result of kind presets. *)
Theorem consolidated_preset_only_is_virtual configDir name options r :
  safeResolveAll name configDir = Some r →
  found (Consolidated.presetFile r) = true →
  found (Consolidated.managerFile r) = false →
  found (Consolidated.previewFile r) = false →
  ∃ v,
    Consolidated.resolveAddonName safeResolveAll stripAbsNodeModulesPath
      configDir name options
    = Some (Virtual v)
    ∧ presets v = Some [(path_of (Consolidated.presetFile r), options)].
Proof.
  intros Hr Hp Hm Hv. unfold Consolidated.resolveAddonName.
  rewrite Hr. cbv zeta. rewrite Hp, Hm, Hv, !orb_true_r.
  unfold virtual_of. rewrite Hp. eexists. split; reflexivity.
Qed.

(** C1: the two revisions return the same result for the same per-entry
    results when the guards of the first revision on the directly resolved
    path do not apply, a manager or a preview entry is found or no preset
    entry is, and the bare preview path is not rewritten. *)
Theorem resolveAddonName_revisions_agree configDir name options :
  let resolved := General.resolved env configDir name in
  let resolvedBrowser := General.browserResolver env name (Some configDir) in
  let resolvedNode := General.nodeResolver env name (Some configDir) in
  same_entries env safeResolveAll configDir name →
  found resolved && found resolvedBrowser
    && matches_manager (path_of resolvedBrowser) = false →
  found resolved && found resolvedNode
    && matches_preset (path_of resolvedNode) = false →
  (∀ r, safeResolveAll name configDir = Some r →
     (found (Consolidated.managerFile r) || found (Consolidated.previewFile r)
      = true
      ∨ found (Consolidated.presetFile r) = false)
     ∧ (found (Consolidated.previewFileAbsolute r) = true →
        includes (path_of (Consolidated.previewFile r)) "node_modules" = true →
        stripAbsNodeModulesPath (path_of (Consolidated.previewFile r))
        = path_of (Consolidated.previewFile r))) →
  General.resolveAddonName env configDir name options
  = Consolidated.resolveAddonName safeResolveAll stripAbsNodeModulesPath
      configDir name options.
Proof.
  intros resolved resolvedBrowser resolvedNode Hsame Hg1 Hg2 Hr.
  unfold General.resolveAddonName, Consolidated.resolveAddonName.
  fold resolved resolvedBrowser resolvedNode.
  rewrite Hg1, Hg2. unfold same_entries in Hsame. fold resolved in Hsame.
  destruct (General.readUpSync env resolved) as [pkg|],
    (safeResolveAll name configDir) as [r|]; try contradiction;
    [|reflexivity].
  destruct Hsame as (Hm & Hreg & Hv & Habs & Hp & Hfb).
  destruct (Hr r eq_refl) as [Hnot Hstrip].
  cbv zeta. rewrite <- Hm, <- Hreg, <- Hv, <- Habs, <- Hp, <- Hfb.
  assert (negb (found (Consolidated.managerFile r)
                || found (Consolidated.previewFile r))
          && found (Consolidated.presetFile r) = false) as ->.
  { destruct Hnot as [-> | ->]; [reflexivity|apply andb_false_r]. }
  destruct (found (Consolidated.previewFileAbsolute r)); [|reflexivity].
  destruct (includes _ _); [|reflexivity].
  rewrite Hstrip by reflexivity. reflexivity.
Qed.

End ResolveFacts.

(** * The properties at work on the samples *)

(** The revisions agree on a package with a manager entry only. *)
Lemma resolveAddonName_revisions_agree_witness :
  General.resolveAddonName Samples.managerOnly Samples.configDir "addon" VUndef
  = Consolidated.resolveAddonName Samples.managerOnlyAll Samples.keepPath
      Samples.configDir "addon" VUndef.
Proof.
  apply (resolveAddonName_revisions_agree Samples.managerOnly
           Samples.managerOnlyAll Samples.keepPath Samples.configDir
           "addon" VUndef).
  - vm_compute. repeat split; reflexivity.
  - reflexivity.
  - reflexivity.
  - intros r [= <-]. split; [left; reflexivity|reflexivity].
Defined.

(** For the specifier [addon/manager], resolved directly to the manager
    file, the per-entry results are the same and yet the first revision
    returns a virtual addon where the second returns the fallback as a
    preset. *)
Lemma resolveAddonName_revisions_differ :
  same_entries Samples.managerOnly Samples.directManagerAll
    Samples.configDir "addon/manager"
  ∧ General.resolveAddonName Samples.managerOnly Samples.configDir
      "addon/manager" VUndef
    = Some (Virtual {| name := "addon/manager";
                       managerEntries := Some [Samples.managerPath];
                       previewAnnotations := None;
                       presets := None |})
  ∧ Consolidated.resolveAddonName Samples.directManagerAll Samples.keepPath
      Samples.configDir "addon/manager" VUndef
    = Some (Presets Samples.managerPath)
  ∧ General.resolveAddonName Samples.managerOnly Samples.configDir
      "addon/manager" VUndef
    ≠ Consolidated.resolveAddonName Samples.directManagerAll Samples.keepPath
        Samples.configDir "addon/manager" VUndef.
Proof.
  split; [vm_compute; repeat split; reflexivity|].
  split; [reflexivity|]. split; [reflexivity|].
  vm_compute. discriminate.
Qed.

(** They differ as well when the second revision rewrites the bare preview
    path. *)
Lemma resolveAddonName_revisions_differ_on_bare_path :
  same_entries Samples.previewOnly Samples.previewOnlyAll
    Samples.configDir "addon"
  ∧ General.resolveAddonName Samples.previewOnly Samples.configDir
      "addon" VUndef
    ≠ Consolidated.resolveAddonName Samples.previewOnlyAll
        Samples.stripToAddon Samples.configDir "addon" VUndef.
Proof.
  split; [vm_compute; repeat split; reflexivity|].
  vm_compute. discriminate.
Qed.

(** A package with a preset entry only: the first revision returns the
    preset file as a preset, the second a virtual addon. *)
Lemma general_preset_only_sample :
  General.resolveAddonName Samples.presetOnly Samples.configDir "addon" VUndef
  = Some (Presets Samples.presetPath).
Proof. reflexivity. Qed.

Lemma consolidated_preset_only_is_virtual_witness :
  ∃ v,
    Consolidated.resolveAddonName Samples.presetOnlyAll Samples.keepPath
      Samples.configDir "addon" VUndef
    = Some (Virtual v)
    ∧ presets v = Some [(Samples.presetPath, VUndef)].
Proof.
  apply (consolidated_preset_only_is_virtual Samples.presetOnlyAll
           Samples.keepPath Samples.configDir "addon" VUndef
           {| Consolidated.managerFile := None;
              Consolidated.registerFile := None;
              Consolidated.previewFile := None;
              Consolidated.previewFileAbsolute := None;
              Consolidated.presetFile := Some Samples.presetPath;
              Consolidated.fallback := None |});
    reflexivity.
Defined.

(** Loading [good], a specifier that can neither be imported nor
    serialised, and [good] again: [loadPreset] rejects on the specifier in
    the middle, and the pass rejects with what [JSON.stringify] throws
    instead of returning the two entries of [good]. *)
Lemma loadPresets_aborts_on_unreportable_fault_witness :
  loadPreset Samples.noName MoreSamples.noPromises Samples.noString
    MoreSamples.stringify Samples.modules
    (Samples.resolveValues (General.resolveAddonName Samples.managerOnly))
    (call Samples.noFunctions Samples.noString 1)
    (loadPresets Samples.noFunctions Samples.noName MoreSamples.noPromises
       Samples.noString MoreSamples.stringify Samples.modules
       (Samples.resolveValues (General.resolveAddonName Samples.managerOnly))
       MoreSamples.inOrder MoreSamples.leftmost
       1 Samples.hostOptions)
    MoreSamples.unserialisable 0 Samples.hostOptions
  = Some ([], Threw (JsError "broken extension"))
  ∧ loadPresets Samples.noFunctions Samples.noName MoreSamples.noPromises
      Samples.noString MoreSamples.stringify Samples.modules
      (Samples.resolveValues (General.resolveAddonName Samples.managerOnly))
      MoreSamples.inOrder MoreSamples.leftmost
      2 Samples.hostOptions
      [VStr "good"; MoreSamples.unserialisable; VStr "good"] 0
    = Some ([], Threw (JsError "broken extension")).
Proof.
  apply (loadPresets_aborts_on_unreportable_fault Samples.noFunctions
           Samples.noName MoreSamples.noPromises Samples.noString
           MoreSamples.stringify Samples.modules
           (Samples.resolveValues
              (General.resolveAddonName Samples.managerOnly))
           MoreSamples.inOrder MoreSamples.leftmost
           1 Samples.hostOptions [VStr "good"] MoreSamples.unserialisable
           [VStr "good"] 0 [] (JsError "Cannot find module")
           (JsError "broken extension")
           [([], Ret [Samples.good])] [([], Ret [Samples.good])]);
    vm_compute; reflexivity.
Defined.

(** Without the specifier in the middle the same pass returns the two
    entries of [good]. *)
Lemma loadPresets_without_unreportable_fault :
  loadPresets Samples.noFunctions Samples.noName MoreSamples.noPromises
    Samples.noString MoreSamples.stringify Samples.modules
    (Samples.resolveValues (General.resolveAddonName Samples.managerOnly))
    MoreSamples.inOrder MoreSamples.leftmost
    2 Samples.hostOptions [VStr "good"; VStr "good"] 0
  = Some ([], Ret [Samples.good; Samples.good]).
Proof. vm_compute. reflexivity. Qed.

(** Loading [good], [nested], [good]: [nested] contributes [good] from its
    presets, then the virtual addon from its addons, then itself. *)
Lemma loadPresets_depth_first_witness :
  loadPreset Samples.noName MoreSamples.noPromises Samples.noString
    MoreSamples.stringify Samples.modules
    (Samples.resolveValues (General.resolveAddonName Samples.managerOnly))
    (call Samples.noFunctions Samples.noString 2)
    (loadPresets Samples.noFunctions Samples.noName MoreSamples.noPromises
       Samples.noString MoreSamples.stringify Samples.modules
       (Samples.resolveValues (General.resolveAddonName Samples.managerOnly))
       MoreSamples.inOrder MoreSamples.leftmost
       2 Samples.hostOptions)
    (VStr "nested") 0 Samples.hostOptions
  = Some ([], Ret [Samples.good; Samples.addon; Samples.nested])
  ∧ ∃ lg,
      loadPresets Samples.noFunctions Samples.noName MoreSamples.noPromises
        Samples.noString MoreSamples.stringify Samples.modules
        (Samples.resolveValues (General.resolveAddonName Samples.managerOnly))
        MoreSamples.inOrder MoreSamples.leftmost
        3 Samples.hostOptions [VStr "good"; VStr "nested"; VStr "good"] 0
      = Some (lg, Ret [Samples.good;
                       Samples.good; Samples.addon; Samples.nested;
                       Samples.good]).
Proof.
  apply (loadPresets_depth_first Samples.noFunctions Samples.noName
           MoreSamples.noPromises Samples.noString MoreSamples.stringify
           Samples.modules
           (Samples.resolveValues
              (General.resolveAddonName Samples.managerOnly))
           MoreSamples.inOrder MoreSamples.leftmost
           2 Samples.hostOptions [VStr "good"] (VStr "nested") [VStr "good"]
           0 VUndef VUndef
           (VObj (Samples.obj [("presets", VArr [VStr "good"]);
                               ("addons", VArr [VStr "addon"]);
                               ("babel", VNum 2)]))
           (Samples.obj [("presets", VArr [VStr "good"]);
                         ("addons", VArr [VStr "addon"]);
                         ("babel", VNum 2)])
           [VStr "good"] [VStr "addon"]
           [] [Samples.good]
           [] [VObj (addon_to_obj (Virtual
                 {| name := "addon";
                    managerEntries := Some [Samples.managerPath];
                    previewAnnotations := None;
                    presets := None |}))]
           [] [Samples.addon]
           [] [Samples.good] [] [Samples.good]);
    vm_compute; reflexivity.
Defined.

(** The module [throwing] exports a keyed structure whose [presets] are
    computed by a function that throws: the specifier is dropped with a
    warning and contributes no entry, not even its own.  So is [deferred],
    whose [presets] are computed by an [async] function: the promise it
    hands back is spread without being awaited. *)
Lemma keyed_contents_without_own_entry :
  getContent Samples.noName Samples.noString MoreSamples.functionModules
    (VStr "throwing")
  = Some ([], Ret (VObj (Samples.obj [("presets", VFun 0);
                                      ("babel", VNum 2)])))
  ∧ loadPreset Samples.noName MoreSamples.asyncFrom3 Samples.noString
      MoreSamples.stringify MoreSamples.functionModules
      (Samples.resolveValues (General.resolveAddonName Samples.managerOnly))
      (call Samples.someFunctions Samples.noString 1)
      (loadPresets Samples.someFunctions Samples.noName
         MoreSamples.asyncFrom3 Samples.noString MoreSamples.stringify
         MoreSamples.functionModules
         (Samples.resolveValues
            (General.resolveAddonName Samples.managerOnly))
         MoreSamples.inOrder MoreSamples.leftmost
         1 Samples.hostOptions)
      (VStr "throwing") 0 Samples.hostOptions
    = Some ([LogWarn ("  Failed to load preset: "
                      +:+ dquote +:+ "throwing" +:+ dquote);
             LogError (JsError "broken extension")], Ret [])
  ∧ getContent Samples.noName Samples.noString MoreSamples.functionModules
      (VStr "deferred")
    = Some ([], Ret (VObj (Samples.obj [("presets", VFun 3);
                                        ("babel", VNum 2)])))
  ∧ loadPreset Samples.noName MoreSamples.asyncFrom3 Samples.noString
      MoreSamples.stringify MoreSamples.functionModules
      (Samples.resolveValues (General.resolveAddonName Samples.managerOnly))
      (call Samples.someFunctions Samples.noString 1)
      (loadPresets Samples.someFunctions Samples.noName
         MoreSamples.asyncFrom3 Samples.noString MoreSamples.stringify
         MoreSamples.functionModules
         (Samples.resolveValues
            (General.resolveAddonName Samples.managerOnly))
         MoreSamples.inOrder MoreSamples.leftmost
         1 Samples.hostOptions)
      (VStr "deferred") 0 Samples.hostOptions
    = Some ([LogWarn ("  Failed to load preset: "
                      +:+ dquote +:+ "deferred" +:+ dquote);
             LogError (TypeError " is not iterable")], Ret []).
Proof. repeat split; vm_compute; reflexivity. Qed.

(** A module that is an [async] function is called and not awaited: the
    specifier is loaded as a preset without any key, whatever the function
    resolves to; a module that is a plain function is loaded as what the
    function returns. *)
Lemma function_contents_samples :
  loadPreset Samples.noName MoreSamples.asyncFrom3 Samples.noString
    MoreSamples.stringify MoreSamples.functionModules
    (Samples.resolveValues (General.resolveAddonName Samples.managerOnly))
    (call Samples.someFunctions Samples.noString 1)
    (loadPresets Samples.someFunctions Samples.noName
       MoreSamples.asyncFrom3 Samples.noString MoreSamples.stringify
       MoreSamples.functionModules
       (Samples.resolveValues (General.resolveAddonName Samples.managerOnly))
       MoreSamples.inOrder MoreSamples.leftmost
       1 Samples.hostOptions)
    (VStr "later") 0 Samples.hostOptions
  = Some ([], Ret [Loaded (VStr "later") ∅ (VObj ∅)])
  ∧ loadPreset Samples.noName MoreSamples.asyncFrom3 Samples.noString
      MoreSamples.stringify MoreSamples.functionModules
      (Samples.resolveValues (General.resolveAddonName Samples.managerOnly))
      (call Samples.someFunctions Samples.noString 1)
      (loadPresets Samples.someFunctions Samples.noName
         MoreSamples.asyncFrom3 Samples.noString MoreSamples.stringify
         MoreSamples.functionModules
         (Samples.resolveValues
            (General.resolveAddonName Samples.managerOnly))
         MoreSamples.inOrder MoreSamples.leftmost
         1 Samples.hostOptions)
      (VStr "computed") 0 Samples.hostOptions
    = Some ([], Ret [Loaded (VStr "computed") Samples.hostOptions (VObj ∅)]).
Proof. split; vm_compute; reflexivity. Qed.

Lemma reducer_concatenates_sequences_witness :
  reducer (call Samples.noFunctions Samples.noString 0)
    [Samples.P1; Samples.P2] "ext" VUndef ∅
    (Some (Ret (VArr [VNum 1]))) Samples.P2
  = Some (Ret (VArr [VNum 1; VNum 2])).
Proof.
  apply (proj1 (reducer_concatenates_sequences Samples.noFunctions
                  Samples.noString)
           (call Samples.noFunctions Samples.noString 0)
           [Samples.P1; Samples.P2] "ext" VUndef ∅ [VNum 1] [VNum 2]).
  reflexivity.
Defined.

Lemma reducer_merges_keyed_structures_witness :
  ∃ merged : gmap string value,
    reducer (call Samples.noFunctions Samples.noString 0)
      [Samples.Q1; Samples.Q2] "ext" VUndef ∅
      (Some (Ret (VObj (Samples.obj [("a", VNum 1)])))) Samples.Q2
    = Some (Ret (VObj merged))
    ∧ ∀ k, merged !! k
           = match Samples.obj [("a", VNum 2); ("b", VNum 3)] !! k with
             | Some v => Some v
             | None => Samples.obj [("a", VNum 1)] !! k
             end.
Proof.
  apply (proj1 (reducer_merges_keyed_structures Samples.noFunctions
                  Samples.noString)
           (call Samples.noFunctions Samples.noString 0)
           [Samples.Q1; Samples.Q2] "ext" VUndef ∅).
  reflexivity.
Defined.

(** The preset after the throwing one contributes a function that never
    returns: it is not called. *)
Lemma applyPresets_propagates_fault_witness :
  applyPresets Samples.someFunctions Samples.noString 1
    [Samples.P1; Samples.Throwing; Samples.Looping] "ext" (VArr []) VUndef ∅
  = Some (Threw (JsError "broken extension")).
Proof.
  apply (applyPresets_propagates_fault Samples.someFunctions
           Samples.noString 1
           [Samples.P1; Samples.Throwing; Samples.Looping] [Samples.P1]
           (VStr "sample") (Samples.obj [("ext", VFun 0)]) (VObj ∅)
           [Samples.Looping] "ext" (VArr []) VUndef ∅ (VFun 0)
           (VArr [VNum 1]));
    reflexivity.
Defined.

Lemma call_looping fuel this config all (so : gmap string value)
    args options :
  call Samples.someFunctions Samples.noString (S fuel) (VFun 1) this
    [config; VObj (combinedOptions all so args options)]
  = match call Samples.someFunctions Samples.noString fuel (VApply all so)
            VUndef [VStr "ext"; config] with
    | Some r => Some r
    | None => None
    end.
Proof.
  cbn [call]. unfold Samples.someFunctions.
  change (nth_arg 1 [?a; ?b]) with b. cbv iota.
  unfold combinedOptions. rewrite lookup_insert_eq.
  cbv iota. rewrite lookup_singleton_eq. reflexivity.
Qed.

Lemma looping_never_returns fuel config args (so : gmap string value) :
  applyPresets Samples.someFunctions Samples.noString fuel
    [Samples.Looping] "ext" config args so
  = None.
Proof.
  enough (∀ config args,
            applyPresets Samples.someFunctions Samples.noString fuel
              [Samples.Looping] "ext" config args so = None
            ∧ applyPresets Samples.someFunctions Samples.noString (S fuel)
                [Samples.Looping] "ext" config args so = None) as H
    by apply H.
  assert (Hstep : ∀ n config args,
            applyPresets Samples.someFunctions Samples.noString n
              [Samples.Looping] "ext" config args so
            = call Samples.someFunctions Samples.noString n (VFun 1)
                (VObj (Samples.obj [("ext", VFun 1)]))
                [config;
                 VObj (combinedOptions [Samples.Looping] so args (VObj ∅))])
    by reflexivity.
  induction fuel as [|fuel IH]; intros c a.
  - split; [reflexivity|]. rewrite Hstep, call_looping. reflexivity.
  - split; [apply IH|].
    rewrite Hstep, call_looping.
    change (call Samples.someFunctions Samples.noString (S fuel)
              (VApply [Samples.Looping] so) VUndef [VStr "ext"; c])
      with (applyPresets Samples.someFunctions Samples.noString fuel
              [Samples.Looping] "ext" c (VObj ∅) so).
    rewrite (proj1 (IH c (VObj ∅))). reflexivity.
Qed.

Lemma reducer_skips_falsy_witness :
  reducer (call Samples.noFunctions Samples.noString 0)
    [Samples.P1; Samples.Zero] "ext" VUndef ∅
    (Some (Ret (VArr [VNum 1]))) Samples.Zero
  = Some (Ret (VArr [VNum 1])).
Proof.
  apply (reducer_skips_falsy (call Samples.noFunctions Samples.noString 0)
           [Samples.P1; Samples.Zero] "ext" VUndef ∅
           (Some (Ret (VArr [VNum 1]))) (VStr "sample")
           (Samples.obj [("ext", VNum 0)]) (VObj ∅) (VNum 0)).
  - reflexivity.
  - left. reflexivity.
Defined.

(** The preset's options, the arguments and the host options all define
    [a]; the arguments and the host options define [b]; the preset's
    options define [presets] and the arguments [presetsList]. *)
Lemma combinedOptions_precedence_witness :
  let options :=
    VObj (Samples.obj [("a", VStr "preset"); ("presets", VStr "preset")]) in
  let combined :=
    combinedOptions [Samples.Returning] Samples.someOptions Samples.someArgs
      options in
  combined !! "a" = Some (VStr "preset")
  ∧ combined !! "b" = Some (VStr "args")
  ∧ combined !! "c" = Some (VStr "host")
  ∧ combined !! "presets"
    = Some (VObj {["apply" :=
                     VApply [Samples.Returning] Samples.someOptions]})
  ∧ combined !! "presetsList"
    = Some (VArr [loaded_to_value Samples.Returning]).
Proof.
  intros options combined.
  destruct (combinedOptions_precedence
              (call Samples.someFunctions Samples.noString 1)
              [Samples.Returning] "ext" Samples.someArgs Samples.someOptions
              (VObj ∅) (VStr "sample") (Samples.obj [("ext", VFun 2)])
              options (VFun 2) eq_refl eq_refl)
    as (_ & Hpresets & Hlist & Hother).
  split; [rewrite Hother by discriminate; reflexivity|].
  split; [rewrite Hother by discriminate; reflexivity|].
  split; [rewrite Hother by discriminate; reflexivity|].
  split; [exact Hpresets|exact Hlist].
Defined.

(** * Further properties *)

(** ** The string tests behind the patterns *)

Lemma prefix_spec (p s : string) :
  String.prefix p s = true ↔ ∃ r, s = p +:+ r.
Proof.
  revert s. induction p as [|a p IH]; intros s; simpl.
  - destruct s; split; eauto.
  - destruct s as [|b s]; simpl.
    + split; [discriminate|]. intros [r [=]].
    + destruct (Ascii.ascii_dec a b) as [->|Hne].
      * rewrite IH. split; intros [r Hr]; exists r.
        -- rewrite Hr. reflexivity.
        -- change (String b s = String b (p +:+ r)) in Hr. congruence.
      * split; [discriminate|]. intros [r Hr].
        change (String b s = String a (p +:+ r)) in Hr. congruence.
Qed.

Lemma append_assoc (s t u : string) : (s +:+ t) +:+ u = s +:+ (t +:+ u).
Proof.
  induction s as [|a s IH]; [reflexivity|].
  change (String a ((s +:+ t) +:+ u) = String a (s +:+ (t +:+ u))).
  rewrite IH. reflexivity.
Qed.

Lemma append_nil_r (s : string) : s +:+ "" = s.
Proof.
  induction s as [|a s IH]; [reflexivity|].
  change (String a (s +:+ "") = String a s). rewrite IH. reflexivity.
Qed.

Lemma rev_app_spec (s t : string) :
  String.rev_app s t = String.rev s +:+ t.
Proof.
  unfold String.rev. revert t. induction s as [|a s IH]; intros t.
  - reflexivity.
  - change (String.rev_app s (String a t)
            = String.rev_app s (String a "") +:+ t).
    rewrite IH, (IH (String a "")), append_assoc. reflexivity.
Qed.

Lemma rev_append (s t : string) :
  String.rev (s +:+ t) = String.rev t +:+ String.rev s.
Proof.
  revert t. induction s as [|a s IH]; intros t.
  - change ("" +:+ t) with t. rewrite append_nil_r. reflexivity.
  - change (String.rev (String a s +:+ t))
      with (String.rev_app (s +:+ t) (String a "")).
    change (String.rev (String a s)) with (String.rev_app s (String a "")).
    rewrite !rev_app_spec, IH, append_assoc. reflexivity.
Qed.

Lemma rev_rev (s : string) : String.rev (String.rev s) = s.
Proof.
  induction s as [|a s IH]; [reflexivity|].
  change (String.rev (String a s)) with (String.rev_app s (String a "")).
  rewrite rev_app_spec, rev_append, IH. reflexivity.
Qed.

Lemma endsWith_spec (s suffix : string) :
  endsWith s suffix = true ↔ ∃ p, s = p +:+ suffix.
Proof.
  unfold endsWith. rewrite prefix_spec. split.
  - intros [r Hr]. exists (String.rev r).
    rewrite <- (rev_rev s), Hr, rev_append, rev_rev. reflexivity.
  - intros [p ->]. exists (String.rev p). apply rev_append.
Qed.

Lemma includes_spec (s needle : string) :
  includes s needle = true ↔ ∃ a b, s = a +:+ needle +:+ b.
Proof.
  induction s as [|c s IH].
  - change (includes "" needle) with (String.prefix needle "" || false).
    rewrite orb_false_r, prefix_spec. split.
    + intros [r Hr]. exists "", r. exact Hr.
    + intros (a & b & H). destruct a; [eauto|discriminate].
  - change (includes (String c s) needle)
      with (String.prefix needle (String c s) || includes s needle).
    rewrite orb_true_iff, IH, prefix_spec. split.
    + intros [[r Hr]|(a & b & ->)].
      * exists "", r. exact Hr.
      * exists (String c a), b. reflexivity.
    + intros (a & b & H). destruct a as [|c' a].
      * left. exists b. exact H.
      * right. change (String c s = String c' (a +:+ needle +:+ b)) in H.
        injection H as -> ->. eauto.
Qed.

Lemma matches_entry_spec (bases : list string) (s : string) :
  matches_entry bases s = true
  ↔ ∃ p b ext,
      b ∈ bases ∧ ext ∈ [""; ".js"; ".mjs"; ".ts"; ".tsx"; ".jsx"]
      ∧ s = p +:+ "/" +:+ b +:+ ext.
Proof.
  unfold matches_entry. rewrite existsb_exists. split.
  - intros (b & Hb & H). apply existsb_exists in H as (ext & Hext & H).
    apply endsWith_spec in H as [p ->].
    exists p, b, ext. rewrite !list_elem_of_In. auto.
  - intros (p & b & ext & Hb & Hext & ->).
    exists b. split; [apply list_elem_of_In, Hb|].
    apply existsb_exists. exists ext.
    split; [apply list_elem_of_In, Hext|].
    apply endsWith_spec. exists p. reflexivity.
Qed.

(** X1: the two filename patterns of the first revision accept exactly the
    paths that end in a slash, one of the base names ([manager],
    [register], [register-panel]; respectively [preset]) and nothing more
    or one of the extensions [.js], [.mjs], [.ts], [.tsx], [.jsx]. *)
Theorem filename_patterns_spec (s : string) :
  (matches_manager s = true
   ↔ ∃ p b ext,
       b ∈ ["manager"; "register"; "register-panel"]
       ∧ ext ∈ [""; ".js"; ".mjs"; ".ts"; ".tsx"; ".jsx"]
       ∧ s = p +:+ "/" +:+ b +:+ ext)
  ∧ (matches_preset s = true
     ↔ ∃ p ext,
         ext ∈ [""; ".js"; ".mjs"; ".ts"; ".tsx"; ".jsx"]
         ∧ s = p +:+ "/preset" +:+ ext).
Proof.
  split; [apply matches_entry_spec|].
  unfold matches_preset. rewrite matches_entry_spec. split.
  - intros (p & b & ext & Hb & Hext & ->).
    apply list_elem_of_singleton in Hb as ->. eauto.
  - intros (p & ext & Hext & ->).
    exists p, "preset", ext. split; [apply list_elem_of_here|auto].
Qed.

(** X2: the pattern of [filterPresetsConfig] accepts exactly the names that
    contain [@storybook], a slash or a backslash, and [preset-typescript],
    anywhere and with anything before and after. *)
Theorem names_preset_typescript_spec (s : string) :
  names_preset_typescript s = true
  ↔ ∃ a sep b,
      (sep = "/" ∨ sep = "\")
      ∧ s = a +:+ "@storybook" +:+ sep +:+ "preset-typescript" +:+ b.
Proof.
  unfold names_preset_typescript.
  rewrite orb_true_iff, !includes_spec. split.
  - intros [(a & b & ->)|(a & b & ->)].
    + exists a, "/", b. split; [left|]; reflexivity.
    + exists a, "\", b. split; [right|]; reflexivity.
  - intros (a & sep & b & [-> | ->] & ->).
    + left. exists a, b. reflexivity.
    + right. exists a, b. reflexivity.
Qed.

(** ** Addon-name resolution, further *)

Lemma virtual_of_shape n options managerFile registerFile previewFile
    presetFile annotation v :
  virtual_of n options managerFile registerFile previewFile presetFile
    annotation = Virtual v →
  name v = n
  ∧ managerEntries v
    = (if found managerFile then Some [path_of managerFile]
       else if found registerFile && negb (found presetFile)
       then Some [path_of registerFile] else None)
  ∧ previewAnnotations v
    = (if found previewFile then Some [annotation] else None)
  ∧ presets v
    = (if found presetFile then Some [(path_of presetFile, options)]
       else None).
Proof.
  unfold virtual_of. intros [= <-]. simpl.
  destruct (found managerFile), (found registerFile), (found presetFile);
    auto.
Qed.

Section ResolveMore.

Context (env : General.Collaborators).
Context (safeResolveAll : string → string → option Consolidated.ResolvedAll).
Context (stripAbsNodeModulesPath : string → string).

(** What the first revision returns once the package is probed. *)
Lemma general_probed configDir n options pkg :
  found (General.resolved env configDir n)
    && found (General.browserResolver env n (Some configDir))
    && matches_manager
         (path_of (General.browserResolver env n (Some configDir))) = false →
  found (General.resolved env configDir n)
    && found (General.nodeResolver env n (Some configDir))
    && matches_preset
         (path_of (General.nodeResolver env n (Some configDir))) = false →
  General.readUpSync env (General.resolved env configDir n) = Some pkg →
  General.resolveAddonName env configDir n options
  = let managerFile := General.managerFile env n pkg in
    let registerFile := General.registerFile env n pkg in
    let previewFile := General.previewFile env n pkg in
    let previewFileAbsolute := General.previewFileAbsolute env n pkg in
    let presetFile := General.presetFile env n pkg in
    if negb (found managerFile || found previewFile) && found presetFile
    then Some (Presets (path_of presetFile))
    else if found managerFile || found registerFile
            || found previewFile || found presetFile
    then Some (virtual_of n options managerFile registerFile
                 previewFile presetFile
                 (if found previewFileAbsolute
                  then BareAbsolute (path_of previewFile)
                                    (path_of previewFileAbsolute)
                  else Bare (path_of previewFile)))
    else if found (General.resolved env configDir n)
    then Some (Presets (path_of (General.resolved env configDir n)))
    else None.
Proof.
  intros Hg1 Hg2 Hpkg. unfold General.resolveAddonName.
  rewrite Hg1, Hg2, Hpkg. reflexivity.
Qed.

(** X3: in the first revision a package in which the manager entry is
    found and neither the preview nor the preset entry is resolves to a
    virtual addon whose only content is that manager file, whether or not
    a register file exists beside it. *)
Theorem general_manager_only configDir n options pkg :
  found (General.resolved env configDir n)
    && found (General.browserResolver env n (Some configDir))
    && matches_manager
         (path_of (General.browserResolver env n (Some configDir))) = false →
  found (General.resolved env configDir n)
    && found (General.nodeResolver env n (Some configDir))
    && matches_preset
         (path_of (General.nodeResolver env n (Some configDir))) = false →
  General.readUpSync env (General.resolved env configDir n) = Some pkg →
  found (General.managerFile env n pkg) = true →
  found (General.previewFile env n pkg) = false →
  found (General.presetFile env n pkg) = false →
  General.resolveAddonName env configDir n options
  = Some (Virtual
            {| name := n;
               managerEntries :=
                 Some [path_of (General.managerFile env n pkg)];
               previewAnnotations := None;
               presets := None |}).
Proof.
  intros Hg1 Hg2 Hpkg Hm Hv Hp.
  rewrite (general_probed _ _ _ _ Hg1 Hg2 Hpkg). cbv zeta.
  unfold virtual_of. rewrite Hm, Hv, Hp. reflexivity.
Qed.

(** X4: in the second revision a package for which the manager entry is
    found and neither the preview nor the preset entry is resolves to a
    virtual addon whose only content is that manager file, whether or not
    a register file is reported beside it. *)
Theorem consolidated_manager_only configDir n options r :
  safeResolveAll n configDir = Some r →
  found (Consolidated.managerFile r) = true →
  found (Consolidated.previewFile r) = false →
  found (Consolidated.presetFile r) = false →
  Consolidated.resolveAddonName safeResolveAll stripAbsNodeModulesPath
    configDir n options
  = Some (Virtual
            {| name := n;
               managerEntries := Some [path_of (Consolidated.managerFile r)];
               previewAnnotations := None;
               presets := None |}).
Proof.
  intros Hr Hm Hv Hp. unfold Consolidated.resolveAddonName.
  rewrite Hr. cbv zeta. unfold virtual_of. rewrite Hm, Hv, Hp. reflexivity.
Qed.

(** X5: whatever the first revision returns as a virtual addon carries the
    specifier as its name and, in each list it has, exactly one element;
    the preset it lists comes with the options it was given. *)
Theorem general_virtual_shape configDir n options v :
  General.resolveAddonName env configDir n options = Some (Virtual v) →
  name v = n
  ∧ (∀ l, managerEntries v = Some l → ∃ file, l = [file])
  ∧ (∀ l, previewAnnotations v = Some l → ∃ a, l = [a])
  ∧ (∀ l, presets v = Some l → ∃ file, l = [(file, options)]).
Proof.
  unfold General.resolveAddonName.
  destruct (found _ && found _ && matches_manager _).
  { intros [= <-]. simpl. repeat split; try discriminate.
    intros l [= <-]. eauto. }
  destruct (found _ && found _ && matches_preset _); [discriminate|].
  destruct (General.readUpSync env _) as [pkg|]; [|discriminate].
  cbv zeta. destruct (negb _ && _); [discriminate|].
  destruct (_ || _ || _ || _).
  - intros H. apply (inj Some) in H.
    apply virtual_of_shape in H as (Hn & Hm & Hv & Hp).
    rewrite Hm, Hv, Hp. split; [exact Hn|].
    repeat split; intros l;
      repeat match goal with |- context [if ?b then _ else _] =>
               destruct b end;
      intros [= <-]; eauto.
  - destruct (found _); discriminate.
Qed.

(** X6: whatever the second revision returns as a virtual addon carries
    the specifier as its name and, in each list it has, exactly one
    element; the preset it lists comes with the options it was given. *)
Theorem consolidated_virtual_shape configDir n options v :
  Consolidated.resolveAddonName safeResolveAll stripAbsNodeModulesPath
    configDir n options = Some (Virtual v) →
  name v = n
  ∧ (∀ l, managerEntries v = Some l → ∃ file, l = [file])
  ∧ (∀ l, previewAnnotations v = Some l → ∃ a, l = [a])
  ∧ (∀ l, presets v = Some l → ∃ file, l = [(file, options)]).
Proof.
  unfold Consolidated.resolveAddonName.
  destruct (safeResolveAll n configDir) as [r|]; [|discriminate].
  cbv zeta. destruct (_ || _ || _ || _).
  - intros H. apply (inj Some) in H.
    apply virtual_of_shape in H as (Hn & Hm & Hv & Hp).
    rewrite Hm, Hv, Hp. split; [exact Hn|].
    repeat split; intros l;
      repeat match goal with |- context [if ?b then _ else _] =>
               destruct b end;
      intros [= <-]; eauto.
  - destruct (found _); discriminate.
Qed.

(** X7: the second revision returns a result of kind presets only as its
    fallback: never for a package in which one of the four entries is
    found. *)
Theorem consolidated_presets_only_by_fallback configDir n options file :
  Consolidated.resolveAddonName safeResolveAll stripAbsNodeModulesPath
    configDir n options = Some (Presets file) →
  ∃ r,
    safeResolveAll n configDir = Some r
    ∧ found (Consolidated.managerFile r) = false
    ∧ found (Consolidated.registerFile r) = false
    ∧ found (Consolidated.previewFile r) = false
    ∧ found (Consolidated.presetFile r) = false
    ∧ Consolidated.fallback r = Some file.
Proof.
  unfold Consolidated.resolveAddonName.
  destruct (safeResolveAll n configDir) as [r|]; [|discriminate].
  cbv zeta.
  destruct (found (Consolidated.managerFile r)) eqn:Hm,
    (found (Consolidated.registerFile r)) eqn:Hreg,
    (found (Consolidated.previewFile r)) eqn:Hv,
    (found (Consolidated.presetFile r)) eqn:Hp; simpl; try discriminate.
  destruct (Consolidated.fallback r) as [f|] eqn:Hf; simpl;
    [|discriminate].
  destruct (negb _); [|discriminate].
  intros [= <-]. exists r. auto 10.
Qed.

(** X8: the first revision returns nothing exactly when its guards on the
    directly resolved path do not apply and either no package manifest is
    found (even for a specifier that resolves to a file) or the package
    has none of the four entries and the specifier itself does not
    resolve. *)
Theorem general_undefined_iff configDir n options :
  General.resolveAddonName env configDir n options = None
  ↔ found (General.resolved env configDir n)
    && found (General.browserResolver env n (Some configDir))
    && matches_manager
         (path_of (General.browserResolver env n (Some configDir))) = false
    ∧ found (General.resolved env configDir n)
      && found (General.nodeResolver env n (Some configDir))
      && matches_preset
           (path_of (General.nodeResolver env n (Some configDir))) = false
    ∧ match General.readUpSync env (General.resolved env configDir n) with
      | None => True
      | Some pkg =>
          found (General.managerFile env n pkg) = false
          ∧ found (General.registerFile env n pkg) = false
          ∧ found (General.previewFile env n pkg) = false
          ∧ found (General.presetFile env n pkg) = false
          ∧ found (General.resolved env configDir n) = false
      end.
Proof.
  unfold General.resolveAddonName.
  destruct (found _ && found _ && matches_manager _).
  { split; [discriminate|]. intros [[=] _]. }
  destruct (found _ && found _ && matches_preset _).
  { split; [discriminate|]. intros (_ & [=] & _). }
  destruct (General.readUpSync env _) as [pkg|]; [|tauto].
  cbv zeta.
  destruct (found (General.managerFile env n pkg)),
    (found (General.registerFile env n pkg)),
    (found (General.previewFile env n pkg)),
    (found (General.presetFile env n pkg)); simpl;
    try (split; [discriminate|intros (_ & _ & H); intuition discriminate]).
  destruct (found (General.resolved env configDir n)); simpl.
  - split; [discriminate|intros (_ & _ & H); intuition discriminate].
  - tauto.
Qed.


End ResolveMore.

(** ** Preset loading, further *)

Section LoadMore.

Context (fnBody : nat → value → list value → prog).
Context (fnName : nat → string).
Context (fnAsync : nat → bool).
Context (ToString : value → string).
Context (JSON_stringify : value → outcome string).
Context (interopRequireDefault : value → outcome value).
Context (resolveAddonName :
           value → value → value → outcome (option ResolvedAddon)).
Context (merge : list (list log_entry) → list log_entry).
Context (race : list error → error).

Local Abbreviation call := (call fnBody ToString).
Local Abbreviation get_prop := (get_prop fnName ToString).
Local Abbreviation getContent :=
  (getContent fnName ToString interopRequireDefault).
Local Abbreviation map := (map ToString resolveAddonName).
Local Abbreviation invoke := (invoke fnAsync ToString).
Local Abbreviation warning := (warning JSON_stringify).
Local Abbreviation loadPreset_try :=
  (loadPreset_try fnName fnAsync ToString interopRequireDefault
     resolveAddonName).
Local Abbreviation loadPreset :=
  (loadPreset fnName fnAsync ToString JSON_stringify interopRequireDefault
     resolveAddonName).
Local Abbreviation loadPresets :=
  (loadPresets fnBody fnName fnAsync ToString JSON_stringify
     interopRequireDefault resolveAddonName merge race).

(** X10: a pass over a list of specifiers rejects only when
    [JSON.stringify] throws on one of the specifiers of the list: if each
    of them can be serialised then the pass, whenever it completes, returns
    a list of loaded presets, whatever the modules, the functions, the
    resolver and the specifiers nested below them do. *)
Theorem serialisable_specifiers_never_reject fuel (so : gmap string value)
    presets level lg r :
  Forall (λ preset, ∃ json, JSON_stringify preset = Ret json) presets →
  loadPresets fuel so presets level = Some (lg, r) →
  ∃ rs, r = Ret rs.
Proof.
  intros Hs. destruct presets as [|p presets].
  { rewrite loadPresets_nil. intros [= <- <-]. eauto. }
  destruct fuel as [|n]; [discriminate|].
  intros H. apply loadPresets_inv in H as (rs & Hrs & _ & ->); [|done].
  assert (rejections rs = []) as ->; [|eauto].
  apply (no_rejections _ _) with (2 := Hrs).
  intros x l r Hx Hxe.
  apply list_elem_of_fmap in Hx as (preset & -> & Hin).
  rewrite Forall_forall in Hs. destruct (Hs _ Hin) as [json Hj].
  eapply loadPreset_returns; eassumption.
Qed.

(** X11: a specifier whose contents are a sequence contributes what the
    elements of the sequence contribute, loaded one level deeper, and no
    entry of its own; if the pass over the sequence rejects, the specifier
    is dropped with a warning, or rejects in its turn when the warning
    cannot be built. *)
Theorem loadPreset_sequence n (so : gmap string value) input level nm op
    c0 subPresets :
  get_prop input "name" = Ret nm →
  get_prop input "options" = Ret op →
  getContent input = Some ([], Ret c0) →
  (if isFunction c0
   then invoke (call n) c0 [VObj so; if truthy op then op else VObj ∅]
   else ret c0) = Some ([], Ret (VArr subPresets)) →
  loadPreset (call n) (loadPresets n so) input level so
  = match loadPresets n so subPresets (level + 1) with
    | Some (lg, Threw e) =>
        match warning input level with
        | Ret w => Some (lg ++ [LogWarn w; LogError e], Ret [])
        | Threw e' => Some (lg, Threw e')
        end
    | settled => settled
    end.
Proof.
  intros Hn Ho Hc Hf.
  assert (loadPreset_try (call n) (loadPresets n so) input level so
          = loadPresets n so subPresets (level + 1)) as Htry.
  { unfold loadPreset_try. rewrite Hn, Ho, Hc. cbn [bind of_outcome].
    rewrite Hf. cbn [bind].
    destruct (loadPresets n so subPresets (level + 1)) as [[l r]|];
      reflexivity. }
  unfold loadPreset, try_catch. rewrite Htry.
  destruct (loadPresets n so subPresets (level + 1)) as [[l [a|e]]|];
    try reflexivity.
  destruct (warning input level) as [w|e']; cbn; [reflexivity|].
  rewrite app_nil_r. reflexivity.
Qed.

Lemma loadPreset_virtual_entry n (so : gmap string value)
    (o : gmap string value) level :
  o !! "type" = Some (VStr "virtual") →
  o !! "presets" = None →
  o !! "addons" = None →
  loadPreset (call n) (loadPresets n so) (VObj o) level so
  = Some ([],
          Ret [Loaded
                 (if truthy (default VUndef (o !! "name"))
                  then default VUndef (o !! "name") else VObj o)
                 (delete "name" (delete "type" o))
                 (if truthy (default VUndef (o !! "options"))
                  then default VUndef (o !! "options") else VObj ∅)]).
Proof.
  intros Ht Hp Ha.
  assert (delete "name" (delete "type" o) !! "presets" = None) as Hp'.
  { rewrite !lookup_delete_ne by discriminate. exact Hp. }
  assert (delete "name" (delete "type" o) !! "addons" = None) as Ha'.
  { rewrite !lookup_delete_ne by discriminate. exact Ha. }
  unfold loadPreset, loadPreset_try, getContent, try_catch, get_prop.
  cbn [bind of_outcome own_props].
  rewrite Ht. cbn [default id].
  change (is_str (VStr "virtual") "virtual") with true.
  cbn [bind ret isFunction]. rewrite Hp', Ha'.
  cbn [default id]. unfold resolvePresetFunction.
  cbn [isFunction bind ret for_each]. rewrite !loadPresets_nil.
  cbn [bind ret for_each app].
  rewrite (delete_id _ "addons") by exact Ha'.
  rewrite (delete_id _ "presets") by exact Hp'. reflexivity.
Qed.

(** X12: a specifier tagged virtual is loaded without importing any
    module: with no nested presets or addons it contributes exactly one
    entry, whose preset is the specifier without its [type] and [name]
    keys; its [options] key, if any, stays in the preset. *)
Theorem loadPreset_virtual n (so : gmap string value)
    (o : gmap string value) level :
  o !! "type" = Some (VStr "virtual") →
  o !! "presets" = None →
  o !! "addons" = None →
  loadPreset (call n) (loadPresets n so) (VObj o) level so
  = Some ([],
          Ret [Loaded
                 (if truthy (default VUndef (o !! "name"))
                  then default VUndef (o !! "name") else VObj o)
                 (delete "name" (delete "type" o))
                 (if truthy (default VUndef (o !! "options"))
                  then default VUndef (o !! "options") else VObj ∅)]).
Proof. apply loadPreset_virtual_entry. Qed.

Lemma for_each_map_unresolved (so : gmap string value) names :
  (∀ a, a ∈ names →
     resolveAddonName (default VUndef (so !! "configDir")) (VStr a) VUndef
     = Ret None) →
  for_each (map so) (VStr <$> names)
  = Some ((λ a, LogWarn ("Could not resolve addon " +:+ dquote
                         +:+ ToString (VStr a) +:+ dquote
                         +:+ ", skipping. Is it installed?")) <$> names,
          Ret ((λ _, VUndef) <$> names)).
Proof.
  induction names as [|a names IH]; intros H; [reflexivity|].
  rewrite !fmap_cons. cbn [for_each].
  assert (map so (VStr a)
          = Some ([LogWarn ("Could not resolve addon " +:+ dquote
                            +:+ ToString (VStr a) +:+ dquote
                            +:+ ", skipping. Is it installed?")],
                  Ret VUndef)) as ->.
  { unfold map. rewrite H by apply list_elem_of_here. reflexivity. }
  rewrite IH by (intros b Hb; apply H, list_elem_of_further, Hb).
  cbn [bind ret app]. rewrite app_nil_r. reflexivity.
Qed.

(** X13: addons that the resolver cannot resolve are reported, one warning
    each in the order they are listed, and left out: the preset that lists
    them is loaded all the same. *)
Theorem unresolved_addons_dropped n (so : gmap string value) input level
    nm op c0 (contents : gmap string value) names :
  get_prop input "name" = Ret nm →
  get_prop input "options" = Ret op →
  getContent input = Some ([], Ret c0) →
  (if isFunction c0
   then invoke (call n) c0 [VObj so; if truthy op then op else VObj ∅]
   else ret c0) = Some ([], Ret (VObj contents)) →
  contents !! "presets" = None →
  contents !! "addons" = Some (VArr (VStr <$> names)) →
  (∀ a, a ∈ names →
     resolveAddonName (default VUndef (so !! "configDir")) (VStr a) VUndef
     = Ret None) →
  loadPreset (call n) (loadPresets n so) input level so
  = Some ((λ a, LogWarn ("Could not resolve addon " +:+ dquote
                         +:+ ToString (VStr a) +:+ dquote
                         +:+ ", skipping. Is it installed?")) <$> names,
          Ret [Loaded (if truthy nm then nm else input)
                 (delete "presets" (delete "addons" contents))
                 (if truthy op then op else VObj ∅)]).
Proof.
  intros Hn Ho Hc Hf Hp Ha Hnone.
  pose proof (loadPreset_keyed fnBody fnName fnAsync ToString
                JSON_stringify interopRequireDefault resolveAddonName
                merge race n so input level
                nm op c0 contents [] (VStr <$> names) [] []
                ((λ a, LogWarn ("Could not resolve addon " +:+ dquote
                                +:+ ToString (VStr a) +:+ dquote
                                +:+ ", skipping. Is it installed?"))
                   <$> names)
                ((λ _, VUndef) <$> names) [] []
                Hn Ho Hc Hf) as H.
  rewrite Hp, Ha in H. cbn [default id] in H.
  assert (filter truthy ((λ _ : string, VUndef) <$> names) = []) as Hfilter.
  { clear. induction names as [|a names IH]; [reflexivity|].
    rewrite fmap_cons, filter_cons_False; [exact IH|]. intros []. }
  rewrite Hfilter, loadPresets_nil in H.
  rewrite (H eq_refl eq_refl eq_refl
             (for_each_map_unresolved so names Hnone) eq_refl).
  rewrite app_nil_r. reflexivity.
Qed.

(** X14: an addon given with options and resolved to a virtual addon
    without a preset is loaded as one entry named after the addon and
    carrying the options; the [options] key that [map] puts on the
    resolved addon stays in the entry's preset, beside the entries of the
    addon. *)
Theorem virtual_addon_keeps_options n (so : gmap string value) item level
    (o : gmap string value) options v :
  item = VObj o →
  o !! "options" = Some options →
  truthy options = true →
  resolveAddonName (default VUndef (so !! "configDir"))
    (default VUndef (o !! "name")) options
  = Ret (Some (Virtual v)) →
  presets v = None →
  name v ≠ "" →
  ∃ resolved (preset : gmap string value),
    map so item = Some ([], Ret resolved)
    ∧ loadPreset (call n) (loadPresets n so) resolved level so
      = Some ([], Ret [Loaded (VStr (name v)) preset options])
    ∧ preset !! "options" = Some options
    ∧ preset !! "managerEntries"
      = (λ l, VArr (VStr <$> l)) <$> managerEntries v
    ∧ preset !! "type" = None
    ∧ preset !! "name" = None.
Proof.
  intros -> Ho Ht Hr Hp Hname.
  set (m := spread {["options" := options]} (addon_to_obj (Virtual v))).
  assert (Hm : ∀ k, m !! k
                    = match addon_to_obj (Virtual v) !! k with
                      | Some x => Some x
                      | None => ({["options" := options]}
                                   : gmap string value) !! k
                      end).
  { intros k. apply spread_lookup. }
  assert (Hobj : ∀ k, k ≠ "presets" → k ≠ "previewAnnotations" →
            k ≠ "managerEntries" → k ≠ "name" → k ≠ "type" →
            addon_to_obj (Virtual v) !! k = None).
  { intros k H1 H2 H3 H4 H5. unfold addon_to_obj, optional_key.
    rewrite Hp. destruct (previewAnnotations v), (managerEntries v);
      cbn [fmap option_fmap option_map];
      rewrite ?lookup_insert_ne by congruence;
      apply lookup_singleton_ne; congruence. }
  assert (Htype : addon_to_obj (Virtual v) !! "type" = Some (VStr "virtual")).
  { unfold addon_to_obj, optional_key. rewrite Hp.
    destruct (previewAnnotations v), (managerEntries v);
      cbn [fmap option_fmap option_map];
      rewrite ?lookup_insert_ne by discriminate;
      apply lookup_singleton_eq. }
  assert (Hnm : addon_to_obj (Virtual v) !! "name" = Some (VStr (name v))).
  { unfold addon_to_obj, optional_key. rewrite Hp.
    destruct (previewAnnotations v), (managerEntries v);
      cbn [fmap option_fmap option_map];
      rewrite ?lookup_insert_ne by discriminate;
      apply lookup_insert_eq. }
  assert (Hpre : addon_to_obj (Virtual v) !! "presets" = None).
  { unfold addon_to_obj, optional_key. rewrite Hp.
    destruct (previewAnnotations v), (managerEntries v);
      cbn [fmap option_fmap option_map];
      rewrite ?lookup_insert_ne by discriminate;
      apply lookup_singleton_ne; discriminate. }
  assert (Hman : addon_to_obj (Virtual v) !! "managerEntries"
                 = (λ l, VArr (VStr <$> l)) <$> managerEntries v).
  { unfold addon_to_obj, optional_key. rewrite Hp.
    destruct (previewAnnotations v), (managerEntries v);
      cbn [fmap option_fmap option_map];
      rewrite ?lookup_insert_ne by discriminate;
      rewrite ?lookup_insert_eq; try reflexivity;
      apply lookup_singleton_ne; discriminate. }
  exists (VObj m), (delete "name" (delete "type" m)).
  split.
  { unfold map. rewrite Ho. cbn [default id]. cbv zeta. rewrite !Ht.
    cbv iota. rewrite Hr. reflexivity. }
  split.
  { rewrite loadPreset_virtual_entry.
    - rewrite !Hm, Hnm, (Hobj "options") by discriminate.
      rewrite lookup_singleton_eq. cbn [default id]. rewrite Ht.
      cbn [truthy]. rewrite bool_decide_eq_false_2 by exact Hname.
      reflexivity.
    - rewrite Hm, Htype. reflexivity.
    - rewrite Hm, Hpre. apply lookup_singleton_ne. discriminate.
    - rewrite Hm, (Hobj "addons") by discriminate.
      apply lookup_singleton_ne. discriminate. }
  split.
  { rewrite !lookup_delete_ne by discriminate.
    rewrite Hm, (Hobj "options") by discriminate.
    apply lookup_singleton_eq. }
  split.
  { rewrite !lookup_delete_ne by discriminate. rewrite Hm, Hman.
    destruct (managerEntries v); [reflexivity|].
    apply lookup_singleton_ne. discriminate. }
  split.
  { rewrite lookup_delete_ne by discriminate. apply lookup_delete_eq. }
  apply lookup_delete_eq.
Qed.

(** X30: a fault that can be reported is isolated.  When the body of
    [loadPreset] faults on a specifier and the warning can be built,
    [loadPreset] logs the warning and the error and returns no entry; a
    pass over a list containing that specifier completes whenever the pass
    over the other specifiers does, and returns exactly the entries of
    that pass. *)
Theorem reported_fault_is_isolated n (so : gmap string value)
    before bad after level lt e w lg rs :
  loadPreset_try (call n) (loadPresets n so) bad level so
  = Some (lt, Threw e) →
  warning bad level = Ret w →
  loadPresets (S n) so (before ++ after) level = Some (lg, Ret rs) →
  loadPreset (call n) (loadPresets n so) bad level so
  = Some (lt ++ [LogWarn w; LogError e], Ret [])
  ∧ ∃ lg', loadPresets (S n) so (before ++ bad :: after) level
           = Some (lg', Ret rs).
Proof.
  intros Hbad Hw Hrest.
  assert (loadPreset (call n) (loadPresets n so) bad level so
          = Some (lt ++ [LogWarn w; LogError e], Ret [])) as Hcaught
    by (eapply loadPreset_caught; eassumption).
  split; [exact Hcaught|].
  apply loadPresets_Ret_inv in Hrest as (rs0 & Hrs & Hrej & ->).
  rewrite fmap_app in Hrs.
  apply all_settled_app_inv in Hrs as (rb & ra & Hb & Ha & ->).
  rewrite rejections_app in Hrej. apply app_eq_nil in Hrej as [Hrb Hra].
  destruct (loadPresets_Ret_intro fnBody fnName fnAsync ToString
              JSON_stringify interopRequireDefault resolveAddonName
              merge race n so (before ++ bad :: after) level
              (rb ++ (lt ++ [LogWarn w; LogError e], Ret []) :: ra))
    as [lg' Hlg'].
  - apply all_settled_around; assumption.
  - rewrite rejections_app. unfold rejections at 2.
    cbn [omap list_omap]. cbn. fold (rejections ra).
    rewrite Hrb, Hra. reflexivity.
  - exists lg'. rewrite Hlg'. f_equal. f_equal.
    rewrite !fulfilled_app, !concat_app. f_equal.
Qed.

End LoadMore.

(** ** Extension application, further *)

Section ApplyMore.

Context (fnBody : nat → value → list value → prog).
Context (ToString : value → string).

Local Abbreviation call := (call fnBody ToString).
Local Abbreviation applyPresets := (applyPresets fnBody ToString).

(** X15: a key to which no preset contributes a truthy value yields the
    seed configuration, without any function being called. *)
Theorem applyPresets_no_contribution fuel presets extension config args
    (so : gmap string value) :
  Forall (λ p, match p with
               | Loaded _ preset _ =>
                   truthy (default VUndef (preset !! extension)) = false
               end) presets →
  applyPresets fuel presets extension config args so = Some (Ret config).
Proof.
  intros H. unfold applyPresets. rewrite applyPresets_with_foldl.
  generalize presets at 1 as all.
  induction H as [|[n preset options] rest Hp _ IH]; intros all;
    [reflexivity|].
  cbn [foldl]. unfold reducer at 2. rewrite Hp. apply IH.
Qed.

(** X16: when every preset contributes a sequence under the key, or
    nothing, folding from a sequence yields the seed followed by all the
    contributions in the order of the presets. *)
Theorem applyPresets_concatenates_all fuel presets extension seed args
    (so : gmap string value) :
  Forall (λ p, match p with
               | Loaded _ preset _ =>
                   preset !! extension = None
                   ∨ ∃ c, preset !! extension = Some (VArr c)
               end) presets →
  applyPresets fuel presets extension (VArr seed) args so
  = Some (Ret (VArr (seed ++ concat
                       ((λ p, match p with
                              | Loaded _ preset _ =>
                                  match preset !! extension with
                                  | Some (VArr c) => c
                                  | _ => []
                                  end
                              end) <$> presets)))).
Proof.
  intros H. unfold applyPresets. rewrite applyPresets_with_foldl.
  generalize presets at 1 as all. revert seed.
  induction H as [|[n preset options] rest Hp _ IH]; intros seed all.
  - cbn. rewrite app_nil_r. reflexivity.
  - cbn [foldl fmap list_fmap concat]. unfold reducer at 2.
    destruct Hp as [-> | [c ->]]; cbn [default id truthy negb isFunction].
    + rewrite IH. reflexivity.
    + cbn [then_]. rewrite IH, app_assoc. reflexivity.
Qed.

(** X17: when every preset contributes a keyed structure under the key,
    or nothing, folding from a keyed structure yields one in which each
    key has the value given by the last preset that contributes it, and
    the seed's value if none does. *)
Theorem applyPresets_merges_all fuel presets extension
    (seed : gmap string value) args (so : gmap string value) :
  Forall (λ p, match p with
               | Loaded _ preset _ =>
                   preset !! extension = None
                   ∨ ∃ c, preset !! extension = Some (VObj c)
               end) presets →
  ∃ merged : gmap string value,
    applyPresets fuel presets extension (VObj seed) args so
    = Some (Ret (VObj merged))
    ∧ ∀ k,
        merged !! k
        = foldl (λ latest p,
                   match p with
                   | Loaded _ preset _ =>
                       match preset !! extension with
                       | Some (VObj c) =>
                           match c !! k with
                           | Some v => Some v
                           | None => latest
                           end
                       | _ => latest
                       end
                   end) (seed !! k) presets.
Proof.
  intros H. unfold applyPresets.
  setoid_rewrite applyPresets_with_foldl.
  generalize presets at 1 as all. revert seed.
  induction H as [|[n preset options] rest Hp _ IH]; intros seed all.
  - exists seed. split; reflexivity.
  - cbn [foldl]. unfold reducer at 2.
    destruct Hp as [-> | [c ->]]; cbn [default id truthy negb isFunction].
    + apply IH.
    + cbn [then_]. destruct (IH (spread seed c) all) as (m & -> & Hm).
      exists m. split; [reflexivity|]. intros k.
      rewrite Hm, spread_lookup. reflexivity.
Qed.

(** X18: a truthy contribution that is not a function replaces the
    accumulator whenever the two are not both sequences and not both keyed
    structures: a sequence is replaced by a keyed structure, a keyed
    structure by a sequence, and anything by a scalar. *)
Theorem reducer_replaces_on_mismatch c all extension args
    (so : gmap string value) newConfig n (preset : gmap string value)
    options change :
  preset !! extension = Some change →
  truthy change = true →
  isFunction change = false →
  isArray newConfig && isArray change = false →
  isObject newConfig && isObject change = false →
  reducer c all extension args so (Some (Ret newConfig))
    (Loaded n preset options)
  = Some (Ret change).
Proof.
  intros Hc Ht Hf Ha Ho. unfold reducer. rewrite Hc. cbn [default id].
  rewrite Ht, Hf. cbn [negb then_].
  destruct newConfig, change; try discriminate; reflexivity.
Qed.

(** X19: a function contribution is called with the result of folding the
    presets before it, and what it returns is the accumulator for the
    presets after it. *)
Theorem applyPresets_function_sees_earlier fuel all before n
    (preset : gmap string value) options after extension config args
    (so : gmap string value) extensionFn newConfig :
  all = before ++ Loaded n preset options :: after →
  preset !! extension = Some extensionFn →
  isFunction extensionFn = true →
  foldl (reducer (call fuel) all extension args so)
        (Some (Ret config)) before = Some (Ret newConfig) →
  applyPresets fuel all extension config args so
  = foldl (reducer (call fuel) all extension args so)
      (call fuel extensionFn (VObj preset)
         [newConfig; VObj (combinedOptions all so args options)])
      after.
Proof.
  intros Hall Hc Hf Hbefore.
  unfold applyPresets. rewrite applyPresets_with_foldl.
  transitivity
    (foldl (reducer (call fuel) all extension args so) (Some (Ret config))
       (before ++ Loaded n preset options :: after)).
  { f_equal. exact Hall. }
  rewrite foldl_app, Hbefore.
  change (foldl ?f ?a (?x :: ?l)) with (foldl f (f a x) l).
  f_equal. unfold reducer. rewrite Hc. cbn [default id].
  destruct extensionFn; try discriminate Hf; reflexivity.
Qed.

End ApplyMore.

(** ** The entry point, further *)

Section HostMore.

Context (fnBody : nat → value → list value → prog).
Context (fnName : nat → string).
Context (fnAsync : nat → bool).
Context (ToString : value → string).
Context (JSON_stringify : value → outcome string).
Context (interopRequireDefault : value → outcome value).
Context (resolveAddonName :
           value → value → value → outcome (option ResolvedAddon)).
Context (merge : list (list log_entry) → list log_entry).
Context (race : list error → error).
Context (loadCustomPresets : gmap string value → outcome value).

Local Abbreviation keepsPreset := (keepsPreset fnName ToString).
Local Abbreviation filterPresetsConfig :=
  (filterPresetsConfig fnName ToString).
Local Abbreviation loadPresets :=
  (loadPresets fnBody fnName fnAsync ToString JSON_stringify
     interopRequireDefault resolveAddonName merge race).
Local Abbreviation loadAllPresets :=
  (loadAllPresets fnBody fnName fnAsync ToString JSON_stringify
     interopRequireDefault resolveAddonName merge race loadCustomPresets).

Lemma filterPresetsConfig_inv preset rest kept :
  filterPresetsConfig (preset :: rest) = Ret kept →
  ∃ keep kept',
    keepsPreset preset = Ret keep
    ∧ filterPresetsConfig rest = Ret kept'
    ∧ kept = if keep then preset :: kept' else kept'.
Proof.
  simpl. destruct (keepsPreset preset) as [keep|e]; [|discriminate].
  destruct (filterPresetsConfig rest) as [kept'|e]; [|discriminate].
  intros [= <-]. eauto.
Qed.

(** X20: what [filterPresetsConfig] returns is a sub-list of its argument,
    in the same order, and filtering it again changes nothing. *)
Theorem filterPresetsConfig_idempotent presetsConfig kept :
  filterPresetsConfig presetsConfig = Ret kept →
  sublist kept presetsConfig ∧ filterPresetsConfig kept = Ret kept.
Proof.
  revert kept. induction presetsConfig as [|preset rest IH]; intros kept H.
  - injection H as <-. split; [constructor|reflexivity].
  - apply filterPresetsConfig_inv in H
      as (keep & kept' & Hk & Hrest & ->).
    destruct (IH _ Hrest) as [Hsub Hagain]. destruct keep.
    + split; [constructor; exact Hsub|].
      simpl. rewrite Hk, Hagain. reflexivity.
    + split; [constructor; exact Hsub|exact Hagain].
Qed.

(** X21: on specifiers given as strings [filterPresetsConfig] never fails
    and keeps exactly those that do not name the TypeScript preset. *)
Theorem filterPresetsConfig_strings (names : list string) :
  filterPresetsConfig (VStr <$> names)
  = Ret (VStr <$> filter (λ s, names_preset_typescript s = false) names).
Proof.
  induction names as [|s names IH]; [reflexivity|].
  rewrite fmap_cons. simpl. rewrite IH.
  destruct (names_preset_typescript s) eqn:Hs; simpl.
  - rewrite filter_cons_False by (rewrite Hs; discriminate). reflexivity.
  - rewrite filter_cons_True by exact Hs. reflexivity.
Qed.

(** Something is removed exactly when the list gets shorter. *)
Lemma filterPresetsConfig_shorter presetsConfig kept :
  filterPresetsConfig presetsConfig = Ret kept →
  (length kept ≤ length presetsConfig)%nat
  ∧ ((length kept < length presetsConfig)%nat
     ↔ ∃ preset, preset ∈ presetsConfig ∧ keepsPreset preset = Ret false).
Proof.
  revert kept. induction presetsConfig as [|preset rest IH]; intros kept H.
  - injection H as <-. split; [reflexivity|]. split; [simpl; lia|].
    intros (p & Hp & _). inversion Hp.
  - apply filterPresetsConfig_inv in H
      as (keep & kept' & Hk & Hrest & ->).
    destruct (IH _ Hrest) as [Hle Hiff]. destruct keep; simpl.
    + split; [lia|]. rewrite <- Nat.succ_lt_mono, Hiff. split.
      * intros (p & Hp & Hf). exists p. split; [right; exact Hp|exact Hf].
      * intros (p & Hp & Hf). apply elem_of_cons in Hp as [->|Hp].
        -- congruence.
        -- eauto.
    + split; [lia|]. split; [|lia].
      intros _. exists preset. split; [left|exact Hk].
Qed.

(** X22: [loadAllPresets] loads the core presets, then the custom presets,
    then the overrides, without the specifiers naming the TypeScript
    preset, against the options without the [corePresets] and
    [overridePresets] keys; it warns first, and only, when a specifier was
    removed, and hands out [apply] on the loaded list. *)
Theorem loadAllPresets_composition fuel (options : gmap string value)
    core found custom overrides kept lg loaded :
  iterate ToString (or_empty_list (options !! "corePresets")) = Ret core →
  loadCustomPresets options = Ret found →
  iterate ToString found = Ret custom →
  iterate ToString (or_empty_list (options !! "overridePresets"))
  = Ret overrides →
  filterPresetsConfig (core ++ custom ++ overrides) = Ret kept →
  loadPresets fuel (delete "overridePresets" (delete "corePresets" options))
    kept 0 = Some (lg, Ret loaded) →
  ∃ warned : bool,
    (warned = true
     ↔ ∃ preset, preset ∈ core ++ custom ++ overrides
                 ∧ keepsPreset preset = Ret false)
    ∧ loadAllPresets fuel options
      = Some ((if warned
               then [LogWarn
                       "Storybook now supports TypeScript natively. You can safely remove `@storybook/preset-typescript`."]
               else []) ++ lg,
              Ret (VObj {["apply" :=
                     VApply loaded
                       (delete "overridePresets"
                          (delete "corePresets" options))]})).
Proof.
  intros Hcore Hfound Hcustom Hover Hkept Hload.
  destruct (filterPresetsConfig_shorter _ _ Hkept) as [_ Hiff].
  exists (bool_decide
            (length kept < length (core ++ custom ++ overrides))%nat).
  split; [rewrite bool_decide_eq_true; exact Hiff|].
  unfold loadAllPresets, getPresets.
  rewrite Hcore, Hfound. cbn [bind of_outcome]. rewrite Hcustom, Hover.
  cbn [bind of_outcome]. rewrite Hkept. cbn [bind].
  rewrite Hload.
  destruct (bool_decide _); cbn [bind log ret app];
    rewrite ?app_nil_r; reflexivity.
Qed.

End HostMore.

(** ** The bundling script *)

(** X23: a flag is set exactly when some argument starts with two dashes
    and the name of the flag; what follows the name is not looked at, so
    [--watcher] sets [watch]. *)
Theorem hasFlag_spec (flags : list string) (name : string) :
  Bundle.hasFlag flags name = true
  ↔ ∃ s rest, s ∈ flags ∧ s = "--" +:+ name +:+ rest.
Proof.
  unfold Bundle.hasFlag. split.
  - destruct (find _ flags) as [s|] eqn:Hfind; [|discriminate].
    intros _. apply find_some in Hfind as [Hin Hpre].
    apply prefix_spec in Hpre as [rest ->].
    exists (("--" +:+ name) +:+ rest), rest.
    split; [apply list_elem_of_In, Hin|apply append_assoc].
  - intros (s & rest & Hin & ->).
    destruct (find _ flags) as [s'|] eqn:Hfind.
    + apply find_some in Hfind as [_ Hpre].
      apply prefix_spec in Hpre as [r ->].
      rewrite bool_decide_eq_false_2; [reflexivity|discriminate].
    + apply list_elem_of_In in Hin.
      pose proof (find_none _ _ Hfind _ Hin) as Hno. cbv beta in Hno.
      assert (String.prefix ("--" +:+ name) ("--" +:+ name +:+ rest) = true)
        as Hyes.
      { apply prefix_spec. exists rest. symmetry. apply append_assoc. }
      congruence.
Qed.

Section BundleFacts.

Context (w : Bundle.World).

Ltac pick H :=
  repeat match type of H with
         | _ ∈ [] => inversion H
         | _ ∈ _ :: _ => apply elem_of_cons in H as [H|H]
         end.

Lemma andThen_elem {A B} (a : Bundle.action) (m : Bundle.Script A)
    (f : A → Bundle.Script B) :
  a ∈ fst (Bundle.andThen m f) →
  a ∈ fst m ∨ ∃ x, snd m = Ret x ∧ a ∈ fst (f x).
Proof.
  destruct m as [t [x|e]]; simpl; [|auto].
  destruct (f x) as [t' r] eqn:Hf. simpl. rewrite elem_of_app.
  intros [H|H]; [auto|]. right. exists x. rewrite Hf. auto.
Qed.

Lemma when_elem (a : Bundle.action) b m :
  a ∈ fst (Bundle.when b m) → b = true ∧ a ∈ fst m.
Proof. destruct b; simpl; [auto|]. intros H. inversion H. Qed.

Lemma perform_elem {A} (a x : Bundle.action) (r : outcome A) :
  a ∈ fst (Bundle.perform x r) → a = x.
Proof. simpl. intros H. apply list_elem_of_singleton in H. exact H. Qed.

(** The builds found in the trace of a run are the array [tasks]. *)
Lemma run_build cwd flags ts :
  Bundle.Build ts ∈ fst (Bundle.run w cwd flags) →
  ∃ pkg,
    Bundle.readJson w (Bundle.join w [cwd; "package.json"]) = Ret pkg
    ∧ ts = Bundle.tasks w cwd pkg flags
    ∧ ts ≠ [].
Proof.
  unfold Bundle.run. intros H.
  apply andThen_elem in H as [H|(pkg & Hpkg & H)]; [inversion H|].
  exists pkg. split; [exact Hpkg|]. cbv zeta in H.
  apply andThen_elem in H as [H|([] & _ & H)].
  { apply when_elem in H as [_ H]. apply perform_elem in H. discriminate. }
  apply andThen_elem in H as [H|([] & _ & H)].
  { apply when_elem in H as [_ H]. apply perform_elem in H. discriminate. }
  unfold Bundle.getDTSConfigs in H. cbv zeta beta iota in H.
  apply andThen_elem in H as [H|([] & _ & H)].
  { destruct (Bundle.tasks w cwd pkg flags) eqn:Ht; [inversion H|].
    apply perform_elem in H. injection H as ->. split; [reflexivity|].
    discriminate. }
  apply andThen_elem in H as [H|([] & _ & H)].
  { apply when_elem in H as [_ H].
    destruct (default [] _); [inversion H|].
    apply perform_elem in H. discriminate. }
  apply andThen_elem in H as [H|([] & _ & H)].
  { apply when_elem in H as [_ H]. apply perform_elem in H. discriminate. }
  apply perform_elem in H. discriminate.
Qed.

(** The mapper files are written only without [--optimized] and with a
    [tsconfig.json]. *)
Lemma run_mappers cwd flags files :
  Bundle.WriteMappers files ∈ fst (Bundle.run w cwd flags) →
  Bundle.hasFlag flags "optimized" = false
  ∧ Bundle.pathExists w (Bundle.join w [Bundle.cwd w; "tsconfig.json"])
    = true
  ∧ ∃ pkg,
      Bundle.readJson w (Bundle.join w [cwd; "package.json"]) = Ret pkg
      ∧ files = Bundle.generateDTSMapperFile w
                  <$> default [] (Bundle.entries (Bundle.bundler pkg)).
Proof.
  unfold Bundle.run. intros H.
  apply andThen_elem in H as [H|(pkg & Hpkg & H)]; [inversion H|].
  cbv zeta in H.
  apply andThen_elem in H as [H|([] & _ & H)].
  { apply when_elem in H as [_ H]. apply perform_elem in H. discriminate. }
  apply andThen_elem in H as [H|([] & _ & H)].
  { apply when_elem in H as [_ H]. apply perform_elem in H. discriminate. }
  unfold Bundle.getDTSConfigs in H. cbv zeta beta iota in H.
  apply andThen_elem in H as [H|([] & _ & H)].
  { destruct (Bundle.tasks w cwd pkg flags) eqn:Ht; [inversion H|].
    apply perform_elem in H. discriminate. }
  apply andThen_elem in H as [H|([] & _ & H)].
  { apply when_elem in H as [Hc H].
    apply andb_true_iff in Hc as [Hts Hopt].
    apply negb_true_iff in Hopt.
    destruct (default [] _) eqn:He; [inversion H|].
    apply perform_elem in H. injection H as ->.
    split; [exact Hopt|]. split; [exact Hts|]. exists pkg.
    rewrite He. auto. }
  apply andThen_elem in H as [H|([] & _ & H)].
  { apply when_elem in H as [_ H]. apply perform_elem in H. discriminate. }
  apply perform_elem in H. discriminate.
Qed.

(** X24: type declarations come from one place only: at most one of the
    builds of a run is given the declaration settings, and when one is, no
    dev-mode mapper file is written in that run. *)
Theorem declarations_from_one_place cwd flags ts :
  Bundle.Build ts ∈ fst (Bundle.run w cwd flags) →
  (∀ o1 o2, o1 ∈ ts → o2 ∈ ts →
     is_Some (Bundle.dts o1) → is_Some (Bundle.dts o2) → o1 = o2)
  ∧ ((∃ o, o ∈ ts ∧ is_Some (Bundle.dts o)) →
     ∀ files,
       Bundle.WriteMappers files ∉ fst (Bundle.run w cwd flags)).
Proof.
  intros H. apply run_build in H as (pkg & Hpkg & -> & _).
  assert (Hdts : ∀ o, o ∈ Bundle.tasks w cwd pkg flags →
            is_Some (Bundle.dts o) →
            Bundle.hasFlag flags "optimized" = true
            ∧ ∃ f, head (default [Bundle.esm; Bundle.cjs]
                            (Bundle.formats (Bundle.bundler pkg))) = Some f
                   ∧ Bundle.format o = [f]).
  { intros o Ho Hsome. unfold Bundle.tasks, Bundle.getDTSConfigs in Ho.
    cbv zeta beta iota in Ho.
    destruct (Bundle.hasFlag flags "optimized"),
      (head (default [Bundle.esm; Bundle.cjs]
               (Bundle.formats (Bundle.bundler pkg)))) as [f|],
      (bool_decide (is_Some _)), (Bundle.pathExists w _);
      cbn [andb] in Ho;
      (apply elem_of_app in Ho as [Ho|Ho];
       match type of Ho with
       | _ ∈ (if ?c then _ else _) => destruct c
       end;
       try (inversion Ho; fail);
       apply list_elem_of_singleton in Ho; subst o);
      cbn [Bundle.dts Bundle.format] in Hsome |- *;
      try (destruct Hsome as [x Hx]; discriminate Hx);
      destruct f;
      try (destruct Hsome as [x Hx]; discriminate Hx);
      (split; [reflexivity|eexists; split; reflexivity]). }
  assert (Hfmt : ∀ o1 o2, o1 ∈ Bundle.tasks w cwd pkg flags →
            o2 ∈ Bundle.tasks w cwd pkg flags →
            Bundle.format o1 = Bundle.format o2 → o1 = o2).
  { intros o1 o2 H1 H2. unfold Bundle.tasks in H1, H2.
    cbv zeta in H1, H2.
    destruct (Bundle.getDTSConfigs w _ _ _) as [[dtsBuild dtsConfig] ts].
    cbv beta iota in H1, H2.
    destruct (existsb (Bundle.Formats_eqb Bundle.esm) _ && _),
      (existsb (Bundle.Formats_eqb Bundle.cjs) _ && _);
      cbn [app] in H1, H2; pick H1; pick H2; subst o1 o2;
      intros [=]; reflexivity. }
  split.
  - intros o1 o2 H1 H2 S1 S2.
    destruct (Hdts o1 H1 S1) as (_ & f1 & Hf1 & E1).
    destruct (Hdts o2 H2 S2) as (_ & f2 & Hf2 & E2).
    apply Hfmt; [exact H1|exact H2|]. congruence.
  - intros (o & Ho & Hsome) files Hfiles.
    destruct (Hdts o Ho Hsome) as [Hopt _].
    apply run_mappers in Hfiles as [Hno _]. congruence.
Qed.

(** X25: [build] is never started without something to build: every build
    of a run has at least one entry, so a package that lists no entries at
    all is not built, whatever its formats and the flags. *)
Theorem builds_have_entries cwd flags ts :
  Bundle.Build ts ∈ fst (Bundle.run w cwd flags) →
  ts ≠ []
  ∧ (∀ o, o ∈ ts → Bundle.entry o ≠ [])
  ∧ ∃ pkg,
      Bundle.readJson w (Bundle.join w [cwd; "package.json"]) = Ret pkg
      ∧ (default [] (Bundle.entries (Bundle.bundler pkg)) ≠ []
         ∨ default [] (Bundle.browserEntries (Bundle.bundler pkg)) ≠ []
         ∨ default [] (Bundle.nodeEntries (Bundle.bundler pkg)) ≠ []).
Proof.
  intros H. apply run_build in H as (pkg & Hpkg & -> & Hne).
  split; [exact Hne|].
  assert (Hentry : ∀ o, o ∈ Bundle.tasks w cwd pkg flags →
            Bundle.entry o ≠ []
            ∧ (default [] (Bundle.entries (Bundle.bundler pkg)) ≠ []
               ∨ default [] (Bundle.browserEntries (Bundle.bundler pkg)) ≠ []
               ∨ default [] (Bundle.nodeEntries (Bundle.bundler pkg)) ≠ [])).
  { intros o Ho. unfold Bundle.tasks in Ho. cbv zeta in Ho.
    destruct (Bundle.getDTSConfigs w _ _ _) as [[dtsBuild dtsConfig] ts].
    cbv beta iota in Ho.
    apply elem_of_app in Ho as [Ho|Ho];
      match type of Ho with
      | _ ∈ (if ?c && bool_decide ?P then _ else _) =>
          destruct c; cbn [andb] in Ho; [|inversion Ho];
          destruct (decide P) as [Hlen|Hlen];
          [rewrite bool_decide_eq_true_2 in Ho by exact Hlen
          |rewrite bool_decide_eq_false_2 in Ho by exact Hlen;
           inversion Ho]
      end;
      apply list_elem_of_singleton in Ho; subst o; cbn [Bundle.entry];
      destruct (default [] (Bundle.entries (Bundle.bundler pkg)));
      cbn [app] in Hlen |- *;
      first [split; [discriminate|left; discriminate] | idtac].
    - destruct (default [] (Bundle.browserEntries (Bundle.bundler pkg)));
        [simpl in Hlen; lia|].
      split; [discriminate|right; left; discriminate].
    - destruct (default [] (Bundle.nodeEntries (Bundle.bundler pkg)));
        [simpl in Hlen; lia|].
      split; [discriminate|right; right; discriminate]. }
  split; [intros o Ho; apply Hentry, Ho|].
  exists pkg. split; [exact Hpkg|].
  destruct (Bundle.tasks w cwd pkg flags) as [|o rest] eqn:Ht;
    [congruence|].
  apply (Hentry o). left.
Qed.

(** X26: every build of a run leaves out of the bundle the package itself,
    the externals listed in its [bundler] section, its dependencies and
    its peer dependencies. *)
Theorem builds_externalise_dependencies cwd flags ts pkg o :
  Bundle.Build ts ∈ fst (Bundle.run w cwd flags) →
  Bundle.readJson w (Bundle.join w [cwd; "package.json"]) = Ret pkg →
  o ∈ ts →
  Bundle.name pkg ∈ Bundle.external o
  ∧ (∀ x, x ∈ default [] (Bundle.externals (Bundle.bundler pkg)) →
       Some x ∈ Bundle.external o)
  ∧ (∀ d, d ∈ default [] (Bundle.dependencies pkg) →
       Some (fst d) ∈ Bundle.external o)
  ∧ (∀ d, d ∈ default [] (Bundle.peerDependencies pkg) →
       Some (fst d) ∈ Bundle.external o).
Proof.
  intros H Hpkg Ho. apply run_build in H as (pkg' & Hpkg' & -> & _).
  assert (pkg' = pkg) as -> by congruence.
  unfold Bundle.tasks in Ho. cbv zeta in Ho.
  destruct (Bundle.getDTSConfigs w _ _ _) as [[dtsBuild dtsConfig] ts].
  cbv beta iota in Ho.
  assert (Bundle.external o
          = [Bundle.name pkg]
            ++ (Some <$> default [] (Bundle.externals (Bundle.bundler pkg)))
            ++ (Some <$> (fst <$> default [] (Bundle.dependencies pkg)))
            ++ (Some <$> (fst <$> default [] (Bundle.peerDependencies pkg))))
    as ->.
  { destruct (existsb (Bundle.Formats_eqb Bundle.esm) _ && _),
      (existsb (Bundle.Formats_eqb Bundle.cjs) _ && _);
      cbn [app] in Ho; pick Ho; subst o; reflexivity. }
  repeat split.
  - apply elem_of_app. left. apply list_elem_of_here.
  - intros x Hx. rewrite !elem_of_app. right. left.
    apply list_elem_of_fmap. eauto.
  - intros d Hd. rewrite !elem_of_app. right. right. left.
    apply list_elem_of_fmap. exists (fst d).
    split; [reflexivity|]. apply list_elem_of_fmap. eauto.
  - intros d Hd. rewrite !elem_of_app. right. right. right.
    apply list_elem_of_fmap. exists (fst d).
    split; [reflexivity|]. apply list_elem_of_fmap. eauto.
Qed.

(** X27: when the [pre] script of the package fails, nothing else is
    done: no directory is emptied and nothing is built, the error is
    printed if it is an [Error], and the process leaves with code 1. *)
Theorem failing_pre_stops_the_script argv pkg e :
  Bundle.readJson w (Bundle.join w [Bundle.cwd w; "package.json"])
  = Ret pkg →
  found (Bundle.pre (Bundle.bundler pkg)) = true →
  Bundle.exec w
    (Bundle.register w +:+ path_of (Bundle.pre (Bundle.bundler pkg)))
    (Bundle.cwd w) false
  = Threw e →
  Bundle.selfExecution w argv
  = [Bundle.Exec
       (Bundle.register w +:+ path_of (Bundle.pre (Bundle.bundler pkg)))
       (Bundle.cwd w) false]
    ++ match e with
       | Thrown _ => []
       | _ => [Bundle.ConsoleError e]
       end
    ++ [Bundle.Exit 1].
Proof.
  intros Hpkg Hpre Hexec. unfold Bundle.selfExecution, Bundle.run.
  rewrite Hpkg. cbn [Bundle.andThen]. cbv zeta.
  rewrite Hpre. cbn [Bundle.when Bundle.perform]. rewrite Hexec.
  reflexivity.
Qed.

Lemma andThen_elem_snd {A B} (a : Bundle.action) (m : Bundle.Script A)
    (f : A → Bundle.Script B) :
  a ∈ fst (Bundle.andThen m f) →
  a ∈ fst m
  ∨ ∃ x, snd m = Ret x ∧ a ∈ fst (f x)
         ∧ snd (Bundle.andThen m f) = snd (f x).
Proof.
  destruct m as [t [x|e]]; simpl; [|auto].
  destruct (f x) as [t' r] eqn:Hf. simpl. rewrite elem_of_app.
  intros [H|H]; [auto|]. right. exists x. rewrite Hf. auto.
Qed.

Lemma andThen_returns {A B} (m : Bundle.Script A)
    (f : A → Bundle.Script B) b :
  snd (Bundle.andThen m f) = Ret b →
  ∃ x, snd m = Ret x ∧ snd (f x) = Ret b
       ∧ fst (Bundle.andThen m f) = fst m ++ fst (f x).
Proof.
  destruct m as [t [x|e]]; simpl; [|discriminate].
  destruct (f x) as [t' r] eqn:Hf. simpl. intros ->.
  exists x. rewrite Hf. auto.
Qed.

(** X28: [done] is printed exactly when every step of the run succeeded,
    and then it is the last thing the run does. *)
Theorem done_means_success cwd flags :
  (Bundle.ConsoleLog "done" ∈ fst (Bundle.run w cwd flags)
   ↔ snd (Bundle.run w cwd flags) = Ret tt)
  ∧ (snd (Bundle.run w cwd flags) = Ret tt →
     ∃ before,
       fst (Bundle.run w cwd flags) = before ++ [Bundle.ConsoleLog "done"]).
Proof.
  assert (Hlast : snd (Bundle.run w cwd flags) = Ret tt →
            ∃ before,
              fst (Bundle.run w cwd flags)
              = before ++ [Bundle.ConsoleLog "done"]).
  { unfold Bundle.run. intros H.
    apply andThen_returns in H as (pkg & _ & H & ->). cbv zeta in H |- *.
    apply andThen_returns in H as ([] & _ & H & ->).
    apply andThen_returns in H as ([] & _ & H & ->).
    unfold Bundle.getDTSConfigs in H |- *. cbv zeta beta iota in H |- *.
    apply andThen_returns in H as ([] & _ & H & ->).
    apply andThen_returns in H as ([] & _ & H & ->).
    apply andThen_returns in H as ([] & _ & H & ->).
    cbn [Bundle.perform fst]. rewrite !app_assoc. eauto. }
  split; [|exact Hlast]. split.
  - unfold Bundle.run. intros H.
    apply andThen_elem_snd in H as [H|(pkg & _ & H & ->)]; [inversion H|].
    cbv zeta in H |- *.
    apply andThen_elem_snd in H as [H|([] & _ & H & ->)].
    { apply when_elem in H as [_ H]. apply perform_elem in H.
      discriminate. }
    apply andThen_elem_snd in H as [H|([] & _ & H & ->)].
    { apply when_elem in H as [_ H]. apply perform_elem in H.
      discriminate. }
    unfold Bundle.getDTSConfigs in H |- *. cbv zeta beta iota in H |- *.
    apply andThen_elem_snd in H as [H|([] & _ & H & ->)].
    { destruct (Bundle.tasks w cwd pkg flags); [inversion H|].
      apply perform_elem in H. discriminate. }
    apply andThen_elem_snd in H as [H|([] & _ & H & ->)].
    { apply when_elem in H as [_ H].
      destruct (default [] _); [inversion H|].
      apply perform_elem in H. discriminate. }
    apply andThen_elem_snd in H as [H|([] & _ & H & ->)].
    { apply when_elem in H as [_ H]. apply perform_elem in H.
      discriminate. }
    reflexivity.
  - intros H. destruct (Hlast H) as [before ->].
    apply elem_of_app. right. apply list_elem_of_here.
Qed.

End BundleFacts.

Lemma prefix_append (p r : string) : String.prefix p (p +:+ r) = true.
Proof. apply prefix_spec. eauto. Qed.

Lemma substring_append (p r : string) :
  String.substring (String.length p)
    (String.length (p +:+ r) - String.length p) (p +:+ r) = r.
Proof.
  induction p as [|a p IH].
  - change ("" +:+ r) with r. cbn [String.length].
    rewrite Nat.sub_0_r. clear. induction r as [|c r IH]; [reflexivity|].
    cbn [String.length String.substring]. rewrite IH. reflexivity.
  - change (String a p +:+ r) with (String a (p +:+ r)).
    cbn [String.length String.substring]. exact IH.
Qed.

(** X29: the replacement used for the directory of a mapper file changes
    a path that starts with the pattern into the replacement followed by
    the rest, and leaves a path in which the pattern does not occur as it
    is: [./src/x] becomes [dist/x], [lib/x] stays [lib/x]. *)
Theorem replace_spec (pattern replacement : string) :
  (∀ rest,
     Bundle.replace (pattern +:+ rest) pattern replacement
     = replacement +:+ rest)
  ∧ (∀ s,
       includes s pattern = false →
       Bundle.replace s pattern replacement = s).
Proof.
  split.
  - intros rest.
    destruct (pattern +:+ rest) eqn:Hs;
      cbn [Bundle.replace]; rewrite <- Hs, prefix_append, substring_append;
      reflexivity.
  - intros s. induction s as [|c s IH]; intros H.
    + change (includes "" pattern)
        with (String.prefix pattern "" || false) in H.
      rewrite orb_false_r in H. cbn [Bundle.replace]. rewrite H.
      reflexivity.
    + change (includes (String c s) pattern)
        with (String.prefix pattern (String c s) || includes s pattern)
        in H.
      apply orb_false_iff in H as [Hp Hs].
      cbn [Bundle.replace]. rewrite Hp, (IH Hs). reflexivity.
Qed.

(** * The further properties at work on the samples *)

Lemma general_manager_only_witness :
  General.resolveAddonName Samples.managerOnly Samples.configDir "addon" VUndef
  = Some (Virtual MoreSamples.managerOnlyResult).
Proof.
  apply (general_manager_only Samples.managerOnly Samples.configDir "addon"
           VUndef Samples.addonPackage);
    reflexivity.
Defined.

Lemma consolidated_manager_only_witness :
  Consolidated.resolveAddonName Samples.managerOnlyAll Samples.keepPath
    Samples.configDir "addon" VUndef
  = Some (Virtual MoreSamples.managerOnlyResult).
Proof.
  apply (consolidated_manager_only Samples.managerOnlyAll Samples.keepPath
           Samples.configDir "addon" VUndef
           {| Consolidated.managerFile := Some Samples.managerPath;
              Consolidated.registerFile := None;
              Consolidated.previewFile := None;
              Consolidated.previewFileAbsolute := None;
              Consolidated.presetFile := None;
              Consolidated.fallback := None |});
    reflexivity.
Defined.

Lemma general_virtual_shape_witness :
  name MoreSamples.managerOnlyResult = "addon"
  ∧ (∀ l, managerEntries MoreSamples.managerOnlyResult = Some l →
       ∃ file, l = [file])
  ∧ (∀ l, previewAnnotations MoreSamples.managerOnlyResult = Some l →
       ∃ a, l = [a])
  ∧ (∀ l, presets MoreSamples.managerOnlyResult = Some l →
       ∃ file, l = [(file, VUndef)]).
Proof.
  apply (general_virtual_shape Samples.managerOnly Samples.configDir "addon"
           VUndef MoreSamples.managerOnlyResult).
  reflexivity.
Defined.

Lemma consolidated_virtual_shape_witness :
  name MoreSamples.managerOnlyResult = "addon"
  ∧ (∀ l, managerEntries MoreSamples.managerOnlyResult = Some l →
       ∃ file, l = [file])
  ∧ (∀ l, previewAnnotations MoreSamples.managerOnlyResult = Some l →
       ∃ a, l = [a])
  ∧ (∀ l, presets MoreSamples.managerOnlyResult = Some l →
       ∃ file, l = [(file, VUndef)]).
Proof.
  apply (consolidated_virtual_shape Samples.managerOnlyAll Samples.keepPath
           Samples.configDir "addon" VUndef MoreSamples.managerOnlyResult).
  reflexivity.
Defined.

(** The specifier [addon/manager] in the second revision: nothing but the
    fallback. *)
Lemma consolidated_presets_only_by_fallback_witness :
  ∃ r,
    Samples.directManagerAll "addon/manager" Samples.configDir = Some r
    ∧ found (Consolidated.managerFile r) = false
    ∧ found (Consolidated.registerFile r) = false
    ∧ found (Consolidated.previewFile r) = false
    ∧ found (Consolidated.presetFile r) = false
    ∧ Consolidated.fallback r = Some Samples.managerPath.
Proof.
  apply (consolidated_presets_only_by_fallback Samples.directManagerAll
           Samples.keepPath Samples.configDir "addon/manager" VUndef
           Samples.managerPath).
  reflexivity.
Defined.


(** The same package in the first revision. *)
Lemma register_dropped_in_first_revision :
  General.resolveAddonName MoreSamples.registerAndPreset Samples.configDir
    "addon" VUndef
  = Some (Virtual
            {| name := "addon";
               managerEntries := None;
               previewAnnotations :=
                 Some [BareAbsolute Samples.previewPath Samples.previewPath];
               presets := Some [(Samples.presetPath, VUndef)] |}).
Proof. reflexivity. Qed.

(** Loading [good] and a module that cannot be imported. *)
Lemma serialisable_specifiers_never_reject_witness :
  loadPresets Samples.noFunctions Samples.noName MoreSamples.noPromises
    Samples.noString MoreSamples.stringify MoreSamples.modules
    (Samples.resolveValues
       (General.resolveAddonName MoreSamples.nothingInstalled))
    MoreSamples.inOrder MoreSamples.leftmost
    2 Samples.hostOptions [VStr "good"; VStr "absent"] 0
  = Some ([LogWarn ("  Failed to load preset: "
                    +:+ dquote +:+ "absent" +:+ dquote);
           LogError (JsError "Cannot find module")],
          Ret [Samples.good])
  ∧ ∃ rs : list loaded, Ret [Samples.good] = Ret rs.
Proof.
  assert (loadPresets Samples.noFunctions Samples.noName
            MoreSamples.noPromises Samples.noString MoreSamples.stringify
            MoreSamples.modules
            (Samples.resolveValues
               (General.resolveAddonName MoreSamples.nothingInstalled))
            MoreSamples.inOrder MoreSamples.leftmost
            2 Samples.hostOptions [VStr "good"; VStr "absent"] 0
          = Some ([LogWarn ("  Failed to load preset: "
                            +:+ dquote +:+ "absent" +:+ dquote);
                   LogError (JsError "Cannot find module")],
                  Ret [Samples.good])) as H
    by (vm_compute; reflexivity).
  split; [exact H|].
  apply (serialisable_specifiers_never_reject Samples.noFunctions
           Samples.noName MoreSamples.noPromises Samples.noString
           MoreSamples.stringify MoreSamples.modules
           (Samples.resolveValues
              (General.resolveAddonName MoreSamples.nothingInstalled))
           MoreSamples.inOrder MoreSamples.leftmost
           2 Samples.hostOptions [VStr "good"; VStr "absent"] 0
           [LogWarn ("  Failed to load preset: "
                     +:+ dquote +:+ "absent" +:+ dquote);
            LogError (JsError "Cannot find module")]
           (Ret [Samples.good])); [|exact H].
  repeat constructor; eexists; reflexivity.
Defined.

(** The module [list] exports a sequence of two specifiers. *)
Lemma loadPreset_sequence_witness :
  loadPreset Samples.noName MoreSamples.noPromises Samples.noString
    MoreSamples.stringify MoreSamples.modules
    (Samples.resolveValues
       (General.resolveAddonName MoreSamples.nothingInstalled))
    (call Samples.noFunctions Samples.noString 1)
    (loadPresets Samples.noFunctions Samples.noName MoreSamples.noPromises
       Samples.noString MoreSamples.stringify MoreSamples.modules
       (Samples.resolveValues
          (General.resolveAddonName MoreSamples.nothingInstalled))
       MoreSamples.inOrder MoreSamples.leftmost
       1 Samples.hostOptions)
    (VStr "list") 0 Samples.hostOptions
  = Some ([], Ret [Samples.good; Samples.good]).
Proof.
  etransitivity.
  - apply (loadPreset_sequence Samples.noFunctions Samples.noName
             MoreSamples.noPromises Samples.noString MoreSamples.stringify
             MoreSamples.modules
             (Samples.resolveValues
                (General.resolveAddonName MoreSamples.nothingInstalled))
             MoreSamples.inOrder MoreSamples.leftmost
             1 Samples.hostOptions (VStr "list") 0 VUndef VUndef
             (VArr [VStr "good"; VStr "good"]) [VStr "good"; VStr "good"]);
      vm_compute; reflexivity.
  - vm_compute. reflexivity.
Defined.

(** A virtual addon with a manager entry only. *)
Lemma loadPreset_virtual_witness :
  loadPreset Samples.noName MoreSamples.noPromises
    Samples.noString MoreSamples.stringify MoreSamples.modules
    (Samples.resolveValues
       (General.resolveAddonName MoreSamples.nothingInstalled))
    (call Samples.noFunctions Samples.noString 0)
    (loadPresets Samples.noFunctions Samples.noName MoreSamples.noPromises
       Samples.noString MoreSamples.stringify MoreSamples.modules
       (Samples.resolveValues
          (General.resolveAddonName MoreSamples.nothingInstalled))
       MoreSamples.inOrder MoreSamples.leftmost
       0 Samples.hostOptions)
    (VObj MoreSamples.virtualAddon) 0 Samples.hostOptions
  = Some ([], Ret [Samples.addon]).
Proof.
  apply (loadPreset_virtual Samples.noFunctions Samples.noName
           MoreSamples.noPromises Samples.noString MoreSamples.stringify
           MoreSamples.modules
           (Samples.resolveValues
              (General.resolveAddonName MoreSamples.nothingInstalled))
           MoreSamples.inOrder MoreSamples.leftmost
           0 Samples.hostOptions MoreSamples.virtualAddon 0);
    reflexivity.
Defined.

(** The module [needy] lists an addon that is not installed. *)
Lemma unresolved_addons_dropped_witness :
  loadPreset Samples.noName MoreSamples.noPromises
    MoreSamples.toString MoreSamples.stringify MoreSamples.modules
    (Samples.resolveValues
       (General.resolveAddonName MoreSamples.nothingInstalled))
    (call Samples.noFunctions MoreSamples.toString 1)
    (loadPresets Samples.noFunctions Samples.noName MoreSamples.noPromises
       MoreSamples.toString MoreSamples.stringify MoreSamples.modules
       (Samples.resolveValues
          (General.resolveAddonName MoreSamples.nothingInstalled))
       MoreSamples.inOrder MoreSamples.leftmost
       1 Samples.hostOptions)
    (VStr "needy") 0 Samples.hostOptions
  = Some ([LogWarn ("Could not resolve addon " +:+ dquote +:+ "missing"
                    +:+ dquote +:+ ", skipping. Is it installed?")],
          Ret [MoreSamples.needy]).
Proof.
  apply (unresolved_addons_dropped Samples.noFunctions Samples.noName
           MoreSamples.noPromises MoreSamples.toString MoreSamples.stringify
           MoreSamples.modules
           (Samples.resolveValues
              (General.resolveAddonName MoreSamples.nothingInstalled))
           MoreSamples.inOrder MoreSamples.leftmost
           1 Samples.hostOptions (VStr "needy") 0 VUndef VUndef
           (VObj (Samples.obj [("addons", VArr [VStr "missing"]);
                               ("babel", VNum 2)]))
           (Samples.obj [("addons", VArr [VStr "missing"]);
                         ("babel", VNum 2)])
           ["missing"]);
    try (vm_compute; reflexivity).
  intros a Ha. apply list_elem_of_singleton in Ha as ->. reflexivity.
Defined.

(** The addon [addon] given with the options [{x: 1}]. *)
Lemma virtual_addon_keeps_options_witness :
  ∃ resolved (preset : gmap string value),
    map Samples.noString
      (Samples.resolveValues (General.resolveAddonName Samples.managerOnly))
      Samples.hostOptions (VObj MoreSamples.addonWithOptions)
    = Some ([], Ret resolved)
    ∧ loadPreset Samples.noName MoreSamples.noPromises
        Samples.noString MoreSamples.stringify MoreSamples.modules
        (Samples.resolveValues (General.resolveAddonName Samples.managerOnly))
        (call Samples.noFunctions Samples.noString 0)
        (loadPresets Samples.noFunctions Samples.noName MoreSamples.noPromises
           Samples.noString MoreSamples.stringify MoreSamples.modules
           (Samples.resolveValues
              (General.resolveAddonName Samples.managerOnly))
           MoreSamples.inOrder MoreSamples.leftmost
           0 Samples.hostOptions)
        resolved 0 Samples.hostOptions
      = Some ([], Ret [Loaded (VStr "addon") preset
                         (VObj (Samples.obj [("x", VNum 1)]))])
    ∧ preset !! "options" = Some (VObj (Samples.obj [("x", VNum 1)]))
    ∧ preset !! "managerEntries"
      = Some (VArr [VStr Samples.managerPath])
    ∧ preset !! "type" = None
    ∧ preset !! "name" = None.
Proof.
  apply (virtual_addon_keeps_options Samples.noFunctions Samples.noName
           MoreSamples.noPromises Samples.noString MoreSamples.stringify
           MoreSamples.modules
           (Samples.resolveValues
              (General.resolveAddonName Samples.managerOnly))
           MoreSamples.inOrder MoreSamples.leftmost
           0 Samples.hostOptions (VObj MoreSamples.addonWithOptions) 0
           MoreSamples.addonWithOptions
           (VObj (Samples.obj [("x", VNum 1)]))
           MoreSamples.managerOnlyResult);
    try reflexivity.
  discriminate.
Defined.

(** Loading [good], [broken], [good]: the specifier in the middle exports a
    number and is dropped with a warning. *)
Lemma reported_fault_is_isolated_witness :
  loadPreset Samples.noName MoreSamples.noPromises Samples.noString
    MoreSamples.stringify Samples.modules
    (Samples.resolveValues (General.resolveAddonName Samples.managerOnly))
    (call Samples.noFunctions Samples.noString 1)
    (loadPresets Samples.noFunctions Samples.noName MoreSamples.noPromises
       Samples.noString MoreSamples.stringify Samples.modules
       (Samples.resolveValues (General.resolveAddonName Samples.managerOnly))
       MoreSamples.inOrder MoreSamples.leftmost
       1 Samples.hostOptions)
    (VStr "broken") 0 Samples.hostOptions
  = Some ([] ++ [LogWarn ("  Failed to load preset: "
                          +:+ dquote +:+ "broken" +:+ dquote);
                 LogError (JsError " is not a valid preset")], Ret [])
  ∧ ∃ lg',
      loadPresets Samples.noFunctions Samples.noName MoreSamples.noPromises
        Samples.noString MoreSamples.stringify Samples.modules
        (Samples.resolveValues (General.resolveAddonName Samples.managerOnly))
        MoreSamples.inOrder MoreSamples.leftmost
        2 Samples.hostOptions [VStr "good"; VStr "broken"; VStr "good"] 0
      = Some (lg', Ret [Samples.good; Samples.good]).
Proof.
  apply (reported_fault_is_isolated Samples.noFunctions Samples.noName
           MoreSamples.noPromises Samples.noString MoreSamples.stringify
           Samples.modules
           (Samples.resolveValues
              (General.resolveAddonName Samples.managerOnly))
           MoreSamples.inOrder MoreSamples.leftmost
           1 Samples.hostOptions [VStr "good"] (VStr "broken") [VStr "good"]
           0 [] (JsError " is not a valid preset")
           ("  Failed to load preset: " +:+ dquote +:+ "broken" +:+ dquote)
           [] [Samples.good; Samples.good]);
    vm_compute; reflexivity.
Defined.

(** Nobody contributes to the key [other]. *)
Lemma applyPresets_no_contribution_witness :
  applyPresets Samples.someFunctions Samples.noString 0
    [Samples.P1; Samples.Looping] "other" (VNum 7) VUndef ∅
  = Some (Ret (VNum 7)).
Proof.
  apply (applyPresets_no_contribution Samples.someFunctions Samples.noString
           0 [Samples.P1; Samples.Looping] "other" (VNum 7) VUndef ∅).
  repeat constructor.
Defined.

(** [P1] and [P2] contribute sequences, [good] nothing. *)
Lemma applyPresets_concatenates_all_witness :
  applyPresets Samples.noFunctions Samples.noString 0
    [Samples.P1; Samples.good; Samples.P2] "ext" (VArr [VNum 0]) VUndef ∅
  = Some (Ret (VArr [VNum 0; VNum 1; VNum 2])).
Proof.
  apply (applyPresets_concatenates_all Samples.noFunctions Samples.noString
           0 [Samples.P1; Samples.good; Samples.P2] "ext" [VNum 0] VUndef ∅).
  constructor; [right; eexists; reflexivity|].
  constructor; [left; reflexivity|].
  constructor; [right; eexists; reflexivity|].
  constructor.
Defined.

Lemma applyPresets_merges_all_witness :
  ∃ merged : gmap string value,
    applyPresets Samples.noFunctions Samples.noString 0
      [Samples.Q1; Samples.good; Samples.Q2] "ext"
      (VObj (Samples.obj [("z", VNum 0)])) VUndef ∅
    = Some (Ret (VObj merged))
    ∧ ∀ k,
        merged !! k
        = foldl (λ latest p,
                   match p with
                   | Loaded _ preset _ =>
                       match preset !! "ext" with
                       | Some (VObj c) =>
                           match c !! k with
                           | Some v => Some v
                           | None => latest
                           end
                       | _ => latest
                       end
                   end) (Samples.obj [("z", VNum 0)] !! k)
            [Samples.Q1; Samples.good; Samples.Q2].
Proof.
  apply (applyPresets_merges_all Samples.noFunctions Samples.noString
           0 [Samples.Q1; Samples.good; Samples.Q2] "ext"
           (Samples.obj [("z", VNum 0)]) VUndef ∅).
  constructor; [right; eexists; reflexivity|].
  constructor; [left; reflexivity|].
  constructor; [right; eexists; reflexivity|].
  constructor.
Defined.

(** A keyed structure contributed over a sequence replaces it. *)
Lemma reducer_replaces_on_mismatch_witness :
  reducer (call Samples.noFunctions Samples.noString 0)
    [Samples.P1; Samples.Q1] "ext" VUndef ∅
    (Some (Ret (VArr [VNum 1]))) Samples.Q1
  = Some (Ret (VObj (Samples.obj [("a", VNum 1)]))).
Proof.
  apply (reducer_replaces_on_mismatch
           (call Samples.noFunctions Samples.noString 0)
           [Samples.P1; Samples.Q1] "ext" VUndef ∅ (VArr [VNum 1])
           (VStr "sample")
           (Samples.obj [("ext", VObj (Samples.obj [("a", VNum 1)]))])
           (VObj ∅) (VObj (Samples.obj [("a", VNum 1)])));
    reflexivity.
Defined.

(** The function of [Returning] returns what it is given: the fold of
    [P1]. *)
Lemma applyPresets_function_sees_earlier_witness :
  applyPresets Samples.someFunctions Samples.noString 1
    [Samples.P1; Samples.Returning] "ext" (VArr []) Samples.someArgs
    Samples.someOptions
  = Some (Ret (VArr [VNum 1])).
Proof.
  apply (applyPresets_function_sees_earlier Samples.someFunctions
           Samples.noString 1 [Samples.P1; Samples.Returning] [Samples.P1]
           (VStr "sample") (Samples.obj [("ext", VFun 2)])
           (VObj (Samples.obj [("a", VStr "preset");
                               ("presets", VStr "preset")]))
           [] "ext" (VArr []) Samples.someArgs Samples.someOptions
           (VFun 2) (VArr [VNum 1]));
    reflexivity.
Defined.

(** Two specifiers, the second naming the TypeScript preset. *)
Lemma filterPresetsConfig_idempotent_witness :
  sublist [VStr "good"]
    [VStr "good"; VStr "@storybook/preset-typescript"]
  ∧ filterPresetsConfig Samples.noName Samples.noString [VStr "good"]
    = Ret [VStr "good"].
Proof.
  apply (filterPresetsConfig_idempotent Samples.noName Samples.noString
           [VStr "good"; VStr "@storybook/preset-typescript"]
           [VStr "good"]).
  reflexivity.
Defined.

(** The overrides name the TypeScript preset: it is removed with a
    warning, and [good], then the two of [list], are loaded. *)
Lemma loadAllPresets_composition_witness :
  ∃ warned : bool,
    (warned = true
     ↔ ∃ preset,
         preset ∈ [VStr "good"] ++ [VStr "list"]
                  ++ [VStr "@storybook/preset-typescript"]
         ∧ keepsPreset Samples.noName Samples.noString preset = Ret false)
    ∧ loadAllPresets Samples.noFunctions Samples.noName MoreSamples.noPromises
        Samples.noString MoreSamples.stringify MoreSamples.modules
        (Samples.resolveValues
           (General.resolveAddonName MoreSamples.nothingInstalled))
        MoreSamples.inOrder MoreSamples.leftmost
        MoreSamples.customPresets 2 MoreSamples.allOptions
      = Some ((if warned
               then [LogWarn
                       "Storybook now supports TypeScript natively. You can safely remove `@storybook/preset-typescript`."]
               else []) ++ [],
              Ret (VObj {["apply" :=
                     VApply [Samples.good; Samples.good; Samples.good]
                       (delete "overridePresets"
                          (delete "corePresets" MoreSamples.allOptions))]})).
Proof.
  apply (loadAllPresets_composition Samples.noFunctions Samples.noName
           MoreSamples.noPromises Samples.noString MoreSamples.stringify
           MoreSamples.modules
           (Samples.resolveValues
              (General.resolveAddonName MoreSamples.nothingInstalled))
           MoreSamples.inOrder MoreSamples.leftmost
           MoreSamples.customPresets 2 MoreSamples.allOptions
           [VStr "good"] (VArr [VStr "list"]) [VStr "list"]
           [VStr "@storybook/preset-typescript"]
           [VStr "good"; VStr "list"] []
           [Samples.good; Samples.good; Samples.good]);
    vm_compute; reflexivity.
Defined.

(** The sample package built with [--optimized]: the browser build is
    given the declaration settings, and no mapper file is written. *)
Lemma declarations_from_one_place_witness :
  (∀ o1 o2,
     o1 ∈ Bundle.tasks (MoreSamples.world None (Ret tt)) "/pkg"
            (MoreSamples.package None) ["--optimized"] →
     o2 ∈ Bundle.tasks (MoreSamples.world None (Ret tt)) "/pkg"
            (MoreSamples.package None) ["--optimized"] →
     is_Some (Bundle.dts o1) → is_Some (Bundle.dts o2) → o1 = o2)
  ∧ ((∃ o,
        o ∈ Bundle.tasks (MoreSamples.world None (Ret tt)) "/pkg"
              (MoreSamples.package None) ["--optimized"]
        ∧ is_Some (Bundle.dts o)) →
     ∀ files,
       Bundle.WriteMappers files
       ∉ fst (Bundle.run (MoreSamples.world None (Ret tt)) "/pkg"
                ["--optimized"])).
Proof.
  apply (declarations_from_one_place
           (MoreSamples.world None (Ret tt)) "/pkg" ["--optimized"]
           (Bundle.tasks (MoreSamples.world None (Ret tt)) "/pkg"
              (MoreSamples.package None) ["--optimized"])).
  vm_compute. apply list_elem_of_here.
Defined.

(** The browser build of that run is the one given the declaration
    settings. *)
Lemma optimized_build_has_declarations :
  MoreSamples.esmBuild
  ∈ Bundle.tasks (MoreSamples.world None (Ret tt)) "/pkg"
      (MoreSamples.package None) ["--optimized"]
  ∧ is_Some (Bundle.dts MoreSamples.esmBuild).
Proof.
  split.
  - vm_compute. apply list_elem_of_here.
  - eexists. reflexivity.
Qed.

Lemma builds_have_entries_witness :
  Bundle.tasks (MoreSamples.world None (Ret tt)) "/pkg"
    (MoreSamples.package None) ["--optimized"] ≠ []
  ∧ (∀ o,
       o ∈ Bundle.tasks (MoreSamples.world None (Ret tt)) "/pkg"
             (MoreSamples.package None) ["--optimized"] →
       Bundle.entry o ≠ [])
  ∧ ∃ pkg,
      Ret (MoreSamples.package None) = Ret pkg
      ∧ (default [] (Bundle.entries (Bundle.bundler pkg)) ≠ []
         ∨ default [] (Bundle.browserEntries (Bundle.bundler pkg)) ≠ []
         ∨ default [] (Bundle.nodeEntries (Bundle.bundler pkg)) ≠ []).
Proof.
  apply (builds_have_entries (MoreSamples.world None (Ret tt)) "/pkg"
           ["--optimized"]).
  vm_compute. apply list_elem_of_here.
Defined.

Lemma builds_externalise_dependencies_witness :
  Some "pkg" ∈ Bundle.external MoreSamples.esmBuild
  ∧ (∀ x, x ∈ [] → Some x ∈ Bundle.external MoreSamples.esmBuild)
  ∧ (∀ d, d ∈ [("react", "^18.0.0")] →
       Some (fst d) ∈ Bundle.external MoreSamples.esmBuild)
  ∧ (∀ d : string * string, d ∈ [] →
       Some (fst d) ∈ Bundle.external MoreSamples.esmBuild).
Proof.
  apply (builds_externalise_dependencies (MoreSamples.world None (Ret tt))
           "/pkg" ["--optimized"]
           (Bundle.tasks (MoreSamples.world None (Ret tt)) "/pkg"
              (MoreSamples.package None) ["--optimized"])
           (MoreSamples.package None) MoreSamples.esmBuild).
  - vm_compute. apply list_elem_of_here.
  - reflexivity.
  - vm_compute. apply list_elem_of_here.
Defined.

(** The [pre] script of the sample package fails. *)
Lemma failing_pre_stops_the_script_witness :
  Bundle.selfExecution
    (MoreSamples.world (Some "scripts/pre.ts")
       (Threw (JsError "pre failed")))
    ["node"; "bundle.ts"; "--reset"]
  = [Bundle.Exec
       "node -r /scripts/prepare/../node_modules/esbuild-register/register.js scripts/pre.ts"
       "/pkg" false;
     Bundle.ConsoleError (JsError "pre failed");
     Bundle.Exit 1].
Proof.
  apply (failing_pre_stops_the_script
           (MoreSamples.world (Some "scripts/pre.ts")
              (Threw (JsError "pre failed")))
           ["node"; "bundle.ts"; "--reset"]
           (MoreSamples.package (Some "scripts/pre.ts"))
           (JsError "pre failed"));
    reflexivity.
Defined.

Lemma done_means_success_witness :
  ∃ before,
    fst (Bundle.run (MoreSamples.world None (Ret tt)) "/pkg" ["--reset"])
    = before ++ [Bundle.ConsoleLog "done"].
Proof.
  apply (proj2 (done_means_success (MoreSamples.world None (Ret tt)) "/pkg"
                  ["--reset"])).
  reflexivity.
Defined.

Lemma replace_spec_witness :
  Bundle.replace "lib/x" "./src" "dist" = "lib/x".
Proof.
  apply (proj2 (replace_spec "./src" "dist") "lib/x"). reflexivity.
Defined.
